(** * browser-lab: session lifecycle, control plane and screencast pump

    A shallow embedding of the Go sources of the browser server
    (packages [session], [proxy] and [main]) together with the properties
    of its specification.

    Conventions of the embedding.
    - A [*Session] is a location in a heap of session objects: the
      registry, the lifetime timer and the handlers all hold the same
      pointer, so mutation through one is seen by the others.
    - Calls into the operating system ([exec], [context], [os]) are
      recorded, in program order, in a log of [OSCall]s.
    - Whatever the environment decides (the uuid drawn, each reading of
      the clock, what the browser prints on standard error and when,
      whether a send on a data channel fails) is an explicit input of the
      function that observes it.
    - [time.Duration] and instants are nanoseconds in [Z]. *)

From Stdlib Require Import ZArith List String Ascii Lia Bool.
From stdpp Require Import base gmap strings list.
From Equations Require Import Equations.

Local Open Scope Z_scope.

(** ** Package session *)

Module SessionPkg.

Definition loc := nat.

(** Calls on the operating system made by the package, in the order the
    program makes them. The subprocess and its context belong to exactly
    one session and are named by the session id. *)
Inductive OSCall :=
| CmdStart (id : string)        (* cmd.Start() *)
| CtxCancel (id : string)       (* cancel() *)
| ProcessKill (id : string)     (* cmd.Process.Kill() *)
| RemoveAll (path : string).    (* os.RemoveAll(path) *)

#[global] Instance OSCall_eq_dec : EqDecision OSCall.
Proof. solve_decision. Defined.

(** struct Session; [cmd] and [cancel] are the handles named by [ID]. *)
Record Session := mkSession {
  ID : string;
  CreatedAt : Z;
  ExpiresAt : Z;
  wsURL : string;
  isClosed : bool;
}.

Definition set_isClosed (b : bool) (s : Session) : Session :=
  {| ID := ID s; CreatedAt := CreatedAt s; ExpiresAt := ExpiresAt s;
     wsURL := wsURL s; isClosed := b |}.

(** The process state the package works on: the session objects, the
    map of the one [Manager] of the program, and the log of OS calls. *)
Record World := mkWorld {
  heap : gmap loc Session;
  sessions : gmap string loc;
  oslog : list OSCall;
}.

Definition NewManager : World :=
  {| heap := ∅; sessions := ∅; oslog := [] |}.

Definition second : Z := 1000000000.
Definition minute : Z := 60 * second.

Definition profileDir (id : string) : string := "/tmp/chrome-profile-" +:+ id.

(** *** parseDevToolsURL *)

(** [strip_prefix p s] is the rest of [s] after [p] when [s] starts with [p]. *)
Fixpoint strip_prefix (p s : string) : option string :=
  match p, s with
  | EmptyString, _ => Some s
  | String a p', String b s' =>
      if Ascii.eqb a b then strip_prefix p' s' else None
  | String _ _, EmptyString => None
  end.

(** re.FindStringSubmatch(line) for
    [DevTools listening on (ws://.+)\n?] on a scanner line (which holds
    no newline): the leftmost place where the literal is followed by at
    least one character; group 1 runs to the end of the line. *)
Fixpoint findSubmatch (line : string) : option string :=
  match strip_prefix "DevTools listening on ws://" line with
  | Some (String c rest) => Some ("ws://" +:+ String c rest)
  | _ => match line with
         | EmptyString => None
         | String _ tl => findSubmatch tl
         end
  end.

(** Standard error of the subprocess as [bufio.Scanner] reads it: the
    lines (the bytes before each newline, or before the end of the
    stream for a last line without one), each with the instant since
    launch at which the scanner is done with it, and the instant the
    pipe closes or fails, if it ever does. The instant of a line is that
    of its newline or, for a line the scanner gives up on, of the byte
    that fills its buffer. [tie_url] is the choice [select] makes when
    the channel and the timer are ready at once. *)
Record Stderr := mkStderr {
  lines : list (Z * string);
  closes : option Z;
  tie_url : bool;
}.

Inductive ParseError := ErrScannerClosed | ErrTimeout.

(** What the scanning goroutine does on the channel, and when. *)
Inductive ChanEvent :=
| Sent (t : Z) (url : string)
| Closed (t : Z)
| Silent.

(** bufio.MaxScanTokenSize, the size the buffer of a scanner made by
    [bufio.NewScanner] grows to. *)
Definition MaxScanTokenSize : Z := 64 * 1024.

(** A line the scanner cannot hold: [MaxScanTokenSize] bytes have
    filled the buffer and no newline is among them. [Scan] then sets
    [ErrTooLong] and returns false, for good. *)
Definition tooLong (raw : string) : bool :=
  MaxScanTokenSize <=? Z.of_nat (String.length raw).

(** bufio's [dropCR]: [ScanLines] strips one trailing carriage return. *)
Fixpoint dropCR (raw : string) : string :=
  match raw with
  | EmptyString => EmptyString
  | String c EmptyString => if Ascii.eqb c "013" then EmptyString else raw
  | String c tl => String c (dropCR tl)
  end.

(** The goroutine [for scanner.Scan() { ... }; close(ch)]: it sends the
    first match and returns; it closes the channel when [Scan] returns
    false, which is at the end of the stream, at a read error, and at a
    line that is too long for the buffer. *)
Fixpoint scanLines (ls : list (Z * string)) (closes : option Z) : ChanEvent :=
  match ls with
  | [] => match closes with Some t => Closed t | None => Silent end
  | (t, raw) :: rest =>
      if tooLong raw then Closed t
      else
        match findSubmatch (dropCR raw) with
        | Some url => Sent t url
        | None => scanLines rest closes
        end
  end.

Definition startupTimeout : Z := 5 * second.

(** The [select] between the channel and [time.After(5 * time.Second)]. *)
Definition parseDevToolsURL (r : Stderr) : string + ParseError :=
  let before t := (t <? startupTimeout) || ((t =? startupTimeout) && tie_url r) in
  match scanLines (lines r) (closes r) with
  | Sent t url => if before t then inl url else inr ErrTimeout
  | Closed t => if before t then inr ErrScannerClosed else inr ErrTimeout
  | Silent => inr ErrTimeout
  end.

(** *** NewSession *)

(** Everything [NewSession] gets from outside the program. *)
Record Launch := mkLaunch {
  uuid : string;          (* uuid.New().String() *)
  nowCreated : Z;         (* the time.Now() of the field CreatedAt *)
  nowExpires : Z;         (* the time.Now() of the field ExpiresAt, read next *)
  pipeFails : bool;       (* cmd.StderrPipe() returns an error *)
  startFails : bool;      (* cmd.Start() returns an error *)
  stderr : Stderr;
}.

Inductive NewSessionError :=
| ErrStderrPipe
| ErrStart
| ErrParse (e : ParseError).   (* "failed to parse devtools url: %w" *)

Definition log_calls (cs : list OSCall) (W : World) : World :=
  {| heap := heap W; sessions := sessions W; oslog := oslog W ++ cs |}.

Definition alloc (s : Session) (W : World) : loc * World :=
  let l := fresh (dom (heap W)) in
  (l, {| heap := <[l := s]> (heap W); sessions := sessions W; oslog := oslog W |}).

Definition NewSession (duration : Z) (e : Launch) (W : World)
  : (loc + NewSessionError) * World :=
  let id := uuid e in
  if pipeFails e then (inr ErrStderrPipe, log_calls [CtxCancel id] W)
  else if startFails e then (inr ErrStart, log_calls [CtxCancel id] W)
  else
    let W1 := log_calls [CmdStart id] W in
    match parseDevToolsURL (stderr e) with
    | inr err => (inr (ErrParse err), log_calls [CtxCancel id; ProcessKill id] W1)
    | inl url =>
        let s := {| ID := id; CreatedAt := nowCreated e;
                    ExpiresAt := nowExpires e + duration;
                    wsURL := url; isClosed := false |} in
        let '(l, W2) := alloc s W1 in
        (inl l, W2)
    end.

(** func (s *Session) Stop() *)
Definition Stop (l : loc) (W : World) : World :=
  match heap W !! l with
  | None => W
  | Some s =>
      if isClosed s then W
      else
        {| heap := <[l := set_isClosed true s]> (heap W);
           sessions := sessions W;
           oslog := oslog W ++ [CtxCancel (ID s); RemoveAll (profileDir (ID s))] |}
  end.

(** The auto-cleanup goroutine started by [NewSession], run when
    [time.After(duration)] delivers: [s.Stop()]. Its other branch,
    [ctx.Done()], does nothing. *)
Definition autoCleanup (l : loc) (W : World) : World := Stop l W.

Definition GetWSURL (s : Session) : string := wsURL s.

(** *** Manager *)

Definition CreateSession (duration : Z) (e : Launch) (W : World)
  : (loc + NewSessionError) * World :=
  match NewSession duration e W with
  | (inr err, W1) => (inr err, W1)
  | (inl l, W1) =>
      match heap W1 !! l with
      | Some s =>
          (inl l, {| heap := heap W1; sessions := <[ID s := l]> (sessions W1);
                     oslog := oslog W1 |})
      | None => (inl l, W1)
      end
  end.

Definition GetSession (id : string) (W : World) : option loc * bool :=
  match sessions W !! id with
  | Some l => (Some l, true)
  | None => (None, false)
  end.

Definition DeleteSession (id : string) (W : World) : World :=
  match sessions W !! id with
  | Some l =>
      let W1 := Stop l W in
      {| heap := heap W1; sessions := delete id (sessions W1); oslog := oslog W1 |}
  | None => W
  end.

Definition ListSessions (W : World) : list loc :=
  (map_to_list (sessions W)).*2.

End SessionPkg.

(** ** Package proxy *)

Module ProxyPkg.

(** What the two library calls of [ProxyCDP] do: the dial of the
    browser's debugger websocket, and the upgrade of the client
    connection ([Some code] when the upgrader refuses and answers with
    [code] itself). *)
Record Dial := mkDial {
  dialFails : bool;
  upgradeFails : option Z;
}.

Definition StatusSwitchingProtocols : Z := 101.
Definition StatusBadGateway : Z := 502.

(** The status line [ProxyCDP] produces; the relay itself runs after 101. *)
Definition ProxyCDP (d : Dial) (targetURL : string) : Z :=
  if dialFails d then StatusBadGateway
  else match upgradeFails d with
       | Some code => code
       | None => StatusSwitchingProtocols
       end.

End ProxyPkg.

(** ** Package main: control plane and WHIP surface *)

Module Main.
Import SessionPkg.

Definition StatusOK : Z := 200.
Definition StatusCreated : Z := 201.
Definition StatusNoContent : Z := 204.
Definition StatusBadRequest : Z := 400.
Definition StatusNotFound : Z := 404.
Definition StatusMethodNotAllowed : Z := 405.
Definition StatusInternalServerError : Z := 500.

Definition bytes := list Byte.byte.

Inductive ReadError := EOF | ErrUnexpected.

(** An [io.ReadCloser] over a request body: the segments still to be
    delivered, one per arrival from the transport, and the error the
    reader reports once they are exhausted. *)
Record BodyReader := mkBody {
  segments : list bytes;
  final : ReadError;
}.

(** The fields of [*http.Request] the handlers read. [Header.Get]
    answers the empty string for an absent header; [vars] are the path
    variables the router extracted. *)
Record Request := mkRequest {
  Method : string;
  Host : string;
  XForwardedProto : string;
  ContentType : string;
  TLS : bool;                 (* r.TLS != nil *)
  ContentLength : Z;          (* -1 when unknown, as for chunked bodies *)
  Body : BodyReader;
  var_id : string;
  var_resourceId : string;
}.

Inductive PeerConnectionState :=
| PCNew | PCConnecting | PCConnected | PCDisconnected | PCFailed | PCClosed.

(** A [*webrtc.PeerConnection] as far as this program acts on it. *)
Record PeerConn := mkPeerConn {
  pcState : PeerConnectionState;
  closeCalls : nat;             (* calls of PeerConnection.Close() *)
  remoteOffer : option bytes;   (* the SDP given to SetRemoteDescription *)
}.

Record WHIPResource := mkWHIPResource {
  rID : string;
  PeerConnection : loc;
  SessionID : string;
  DataChannel : option string;  (* label of the recorded data channel *)
}.

(** The package-level state: the session manager's world, the WHIP
    registry, the peer connections, and the environment variable. *)
Record State := mkState {
  world : World;
  whipResources : gmap string WHIPResource;
  pcs : gmap loc PeerConn;
  APP_HOST : string;            (* os.Getenv("APP_HOST"), empty when unset *)
}.

Definition with_world (W : World) (st : State) : State :=
  {| world := W; whipResources := whipResources st; pcs := pcs st;
     APP_HOST := APP_HOST st |}.

Definition with_resources (m : gmap string WHIPResource) (st : State) : State :=
  {| world := world st; whipResources := m; pcs := pcs st;
     APP_HOST := APP_HOST st |}.

Definition with_pcs (p : gmap loc PeerConn) (st : State) : State :=
  {| world := world st; whipResources := whipResources st; pcs := p;
     APP_HOST := APP_HOST st |}.

(** *** URL derivation *)

Definition resolveHost (st : State) (r : Request) : string :=
  if negb (String.eqb (APP_HOST st) "") then APP_HOST st else Host r.

Definition resolveScheme (st : State) (r : Request) : string :=
  if negb (String.eqb (XForwardedProto r) "") then XForwardedProto r
  else if TLS r then "https"
  else if negb (String.eqb (APP_HOST st) "") then "https"
  else "http".

Definition resolveWSScheme (st : State) (r : Request) : string :=
  if String.eqb (resolveScheme st r) "https" then "wss" else "ws".

Record SessionResponse := mkSessionResponse {
  respID : string;
  CDPURL : string;
  PreviewURL : string;
  respCreatedAt : Z;
  respExpiresAt : Z;
}.

Definition sessionResponse (st : State) (r : Request) (s : Session) : SessionResponse :=
  let host := resolveHost st r in
  let scheme := resolveScheme st r in
  let wsScheme := resolveWSScheme st r in
  {| respID := ID s;
     CDPURL := wsScheme +:+ "://" +:+ host +:+ "/sessions/" +:+ ID s +:+ "/cdp";
     PreviewURL := scheme +:+ "://" +:+ host +:+ "/sessions/" +:+ ID s +:+ "/preview";
     respCreatedAt := CreatedAt s;
     respExpiresAt := ExpiresAt s |}.

(** [int64] wrap-around of a duration. *)
Definition wrap64 (z : Z) : Z := (z + 2^63) mod 2^64 - 2^63.

(** [decoded] is the result of decoding the JSON body into
    [CreateSessionRequest]: [None] on a decoding error, else the value of
    [duration_minutes] (0 when the field is absent). *)
Definition createSessionHandler (decoded : option Z) (e : Launch)
    (r : Request) (st : State) : Z * option SessionResponse * State :=
  let m0 := match decoded with Some n => n | None => 5 end in
  let m := if m0 <=? 0 then 5 else m0 in
  let duration := wrap64 (m * minute) in
  match CreateSession duration e (world st) with
  | (inr _, W1) => (StatusInternalServerError, None, with_world W1 st)
  | (inl l, W1) =>
      let st1 := with_world W1 st in
      match heap W1 !! l with
      | Some s => (StatusOK, Some (sessionResponse st1 r s), st1)
      | None => (StatusInternalServerError, None, st1)
      end
  end.

Definition listSessionsHandler (r : Request) (st : State) : Z * list SessionResponse :=
  (StatusOK,
   omap (fun l => sessionResponse st r <$> heap (world st) !! l)
        (ListSessions (world st))).

Definition stopSessionHandler (r : Request) (st : State) : Z * State :=
  let W1 := DeleteSession (var_id r) (world st) in
  (StatusOK, with_world W1 st).

Definition cdpProxyHandler (d : ProxyPkg.Dial) (r : Request) (st : State) : Z :=
  match GetSession (var_id r) (world st) with
  | (Some l, true) =>
      match heap (world st) !! l with
      | Some s => ProxyPkg.ProxyCDP d (GetWSURL s)
      | None => StatusInternalServerError
      end
  | _ => StatusNotFound
  end.

(** *** WHIP surface *)

(** [r.Body.Read(p)] with [len(p) = n]: at most [n] bytes of what has
    arrived, or the reader's final error once nothing is left. *)
Definition BodyRead (n : nat) (b : BodyReader) : bytes * option ReadError * BodyReader :=
  match segments b with
  | [] => ([], Some (final b), b)
  | seg :: rest =>
      let left := drop n seg in
      (take n seg, None,
       {| segments := match left with [] => rest | _ => left :: rest end;
          final := final b |})
  end.

Inductive OfferRead :=
| OfferPanic                 (* make([]byte, n) with n < 0 *)
| OfferBadRequest            (* a read error other than EOF *)
| Offer (sdp : bytes).

(** The body read of [whipHandler]: a buffer of [ContentLength] zero
    bytes, filled by ONE call of [Read]; the whole buffer is the offer. *)
Definition readOffer (r : Request) : OfferRead :=
  if ContentLength r <? 0 then OfferPanic
  else
    let n := Z.to_nat (ContentLength r) in
    let '(got, err, _) := BodyRead n (Body r) in
    match err with
    | Some ErrUnexpected => OfferBadRequest
    | _ => Offer (got ++ replicate (n - length got) Byte.x00)
    end.

(** What the WebRTC stack and the uuid source answer during one POST. *)
Record Negotiation := mkNegotiation {
  newPCFails : bool;
  resourceUUID : string;
  setRemoteFails : bool;
  createAnswerFails : bool;
  setLocalFails : bool;
}.

Inductive Outcome :=
| Panic
| Respond (status : Z) (location : option string).

Definition set_pcState (s : PeerConnectionState) (p : PeerConn) : PeerConn :=
  {| pcState := s; closeCalls := closeCalls p; remoteOffer := remoteOffer p |}.

Definition set_remoteOffer (o : bytes) (p : PeerConn) : PeerConn :=
  {| pcState := pcState p; closeCalls := closeCalls p; remoteOffer := Some o |}.

(** PeerConnection.Close() *)
Definition pcClose (pc : loc) (st : State) : State :=
  with_pcs (alter (fun p => {| pcState := PCClosed; closeCalls := S (closeCalls p);
                              remoteOffer := remoteOffer p |}) pc (pcs st)) st.

(** The callback registered with OnConnectionStateChange for the
    resource [resourceID]. *)
Definition OnConnectionStateChange (resourceID : string)
    (state : PeerConnectionState) (st : State) : State :=
  match state with
  | PCFailed | PCClosed => with_resources (delete resourceID (whipResources st)) st
  | _ => st
  end.

(** The stack moves the connection [pc] of resource [resourceID] to
    [state] and runs the callback. *)
Definition connectionStateChange (pc : loc) (resourceID : string)
    (state : PeerConnectionState) (st : State) : State :=
  OnConnectionStateChange resourceID state
    (with_pcs (alter (set_pcState state) pc (pcs st)) st).

Definition whipHandler (n : Negotiation) (r : Request) (st : State) : Outcome * State :=
  if negb (String.eqb (Method r) "POST") then (Respond StatusMethodNotAllowed None, st)
  else
    let sessionID := var_id r in
    match GetSession sessionID (world st) with
    | (Some _, true) =>
        if negb (String.eqb (ContentType r) "application/sdp")
        then (Respond StatusBadRequest None, st)
        else
          match readOffer r with
          | OfferPanic => (Panic, st)
          | OfferBadRequest => (Respond StatusBadRequest None, st)
          | Offer offerSDP =>
              if newPCFails n then (Respond StatusInternalServerError None, st)
              else
                let pc := fresh (dom (pcs st)) in
                let st1 := with_pcs (<[pc := {| pcState := PCNew; closeCalls := 0%nat;
                                               remoteOffer := None |}]> (pcs st)) st in
                let resourceID := resourceUUID n in
                if setRemoteFails n then (Respond StatusBadRequest None, st1)
                else
                  let st2 := with_pcs (alter (set_remoteOffer offerSDP) pc (pcs st1)) st1 in
                  if createAnswerFails n then (Respond StatusInternalServerError None, st2)
                  else if setLocalFails n then (Respond StatusInternalServerError None, st2)
                  else
                    let resource := {| rID := resourceID; PeerConnection := pc;
                                       SessionID := sessionID; DataChannel := None |} in
                    (Respond StatusCreated
                       (Some ("/sessions/" +:+ sessionID +:+ "/whip/" +:+ resourceID)),
                     with_resources (<[resourceID := resource]> (whipResources st2)) st2)
          end
    | _ => (Respond StatusNotFound None, st)
    end.

Definition whipResourceHandler (r : Request) (st : State) : Z * State :=
  let resourceID := var_resourceId r in
  match whipResources st !! resourceID with
  | None => (StatusNotFound, st)
  | Some resource =>
      if String.eqb (Method r) "PATCH" then (StatusNoContent, st)
      else if String.eqb (Method r) "DELETE" then
        let st1 := pcClose (PeerConnection resource) st in
        (StatusOK, with_resources (delete resourceID (whipResources st1)) st1)
      else (StatusMethodNotAllowed, st)
  end.

End Main.

(** ** Package main: the screencast pump *)

Module Pump.
Import Main.

(** base64.StdEncoding.DecodeString, after the library's documentation:
    the standard alphabet, [=] padding required, carriage returns and
    line feeds skipped. *)
Definition b64val (c : ascii) : option N :=
  let n := N_of_ascii c in
  (if (65 <=? n) && (n <=? 90) then Some (n - 65)
   else if (97 <=? n) && (n <=? 122) then Some (n - 71)
   else if (48 <=? n) && (n <=? 57) then Some (n + 4)
   else if n =? 43 then Some 62
   else if n =? 47 then Some 63
   else None)%N.

Definition byte_of (n : N) : Byte.byte := byte_of_ascii (ascii_of_N (n mod 256)%N).

Definition isPad (c : ascii) : bool := Ascii.eqb c "=".

Fixpoint decodeQuanta (cs : list ascii) : option bytes :=
  match cs with
  | [] => Some []
  | a :: b :: c :: d :: rest =>
      match b64val a, b64val b with
      | Some va, Some vb =>
          let b0 := byte_of (va * 4 + vb / 16)%N in
          if isPad c then
            if isPad d then match rest with [] => Some [b0] | _ => None end
            else None
          else
            match b64val c with
            | None => None
            | Some vc =>
                let b1 := byte_of (vb * 16 + vc / 4)%N in
                if isPad d then match rest with [] => Some [b0; b1] | _ => None end
                else
                  match b64val d, decodeQuanta rest with
                  | Some vd, Some tl => Some (b0 :: b1 :: byte_of (vc * 64 + vd)%N :: tl)
                  | _, _ => None
                  end
            end
      | _, _ => None
      end
  | _ => None
  end.

Definition isNewline (c : ascii) : bool := Ascii.eqb c "010" || Ascii.eqb c "013".

Definition DecodeString (s : string) : option bytes :=
  decodeQuanta (filter (fun c => isNewline c = false) (list_ascii_of_string s)).

(** struct WebRTCScreencastFrameParams (the metadata is not read) *)
Record WebRTCScreencastFrameParams := mkParams {
  Data : string;
  SessionID : Z;
}.

(** struct CDPMessage. [Params] holds what
    [json.Unmarshal(msg.Params, &params)] yields: [None] when it fails. *)
Record CDPMessage := mkCDPMessage {
  msgID : Z;
  msgMethod : string;
  Params : option WebRTCScreencastFrameParams;
}.

(** One turn of [conn.ReadMessage] followed by [json.Unmarshal]. *)
Inductive Incoming :=
| ReadFails
| Malformed
| Message (m : CDPMessage).

(** What the pump does on its two connections, in program order. *)
Inductive Event :=
| EvRead (i : Incoming)                          (* conn.ReadMessage returned *)
| EvWriteJSON (id : Z) (method : string)         (* conn.WriteJSON of a command *)
| EvSendText (size : nat) (ok : bool)            (* dc.SendText of frame-start *)
| EvSend (chunk : bytes) (ok : bool)             (* dc.Send *)
| EvAck (id : Z) (sessionId : Z) (ok : bool).    (* Page.screencastFrameAck *)

(** The failures the environment injects: whether the [k]-th send on the
    data channel fails, and whether the [k]-th ack write fails. *)
Record Faults := mkFaults {
  dcFails : nat -> bool;
  ackFails : nat -> bool;
}.

Definition chunkSize : nat := Z.to_nat 60000.

Lemma chunkSize_pos : (0 < chunkSize)%nat.
Proof. unfold chunkSize. lia. Qed.

#[global] Opaque chunkSize.

(** The chunk loop
    [for i := 0; i < len(data); i += chunkSize { ... dc.Send(data[i:end]) ... }]
    from index [i], the data channel having carried [k] sends; a failed
    send leaves this loop. Slice lengths stay far below the range of
    [int], so the indices are natural numbers. *)
Equations? sendChunks (f : Faults) (data : bytes) (i k : nat) : list Event
  by wf (length data - i)%nat lt :=
sendChunks f data i k with decide (i < length data)%nat := {
  | right _ => []
  | left _ =>
      let end_ := if decide (length data < i + chunkSize)%nat
                  then length data else (i + chunkSize)%nat in
      let chunk := take (end_ - i) (drop i data) in
      if dcFails f k then [EvSend chunk false]
      else EvSend chunk true :: sendChunks f data (i + chunkSize) (S k) }.
Proof. pose proof chunkSize_pos. lia. Qed.

Record LoopState := mkLoopState {
  idCounter : Z;
  frameCount : Z;
  dcSends : nat;      (* sends made on the data channel so far *)
  acks : nat;         (* ack writes made so far *)
}.

(** The main read loop. The list holds what the debugger connection
    delivers; once it is exhausted [ReadMessage] fails (the connection is
    gone) and the loop is left. *)
Fixpoint readLoop (f : Faults) (input : list Incoming) (s : LoopState) : list Event :=
  match input with
  | [] => []
  | ReadFails :: _ => [EvRead ReadFails]
  | Malformed :: rest => EvRead Malformed :: readLoop f rest s
  | Message msg :: rest =>
      EvRead (Message msg) ::
      if negb (String.eqb (msgMethod msg) "Page.screencastFrame")
      then readLoop f rest s
      else
        let s1 := {| idCounter := idCounter s; frameCount := wrap64 (frameCount s + 1);
                     dcSends := dcSends s; acks := acks s |} in
        match Params msg with
        | None => readLoop f rest s1
        | Some params =>
            match DecodeString (Data params) with
            | None => readLoop f rest s1
            | Some data =>
                if dcFails f (dcSends s1) then [EvSendText (length data) false]
                else
                  let chunks := sendChunks f data 0 (S (dcSends s1)) in
                  let id := wrap64 (idCounter s1 + 1) in
                  let s2 := {| idCounter := id; frameCount := frameCount s1;
                               dcSends := (S (dcSends s1) + length chunks)%nat;
                               acks := S (acks s1) |} in
                  EvSendText (length data) true :: chunks
                    ++ EvAck id (SessionID params) (negb (ackFails f (acks s1)))
                    :: readLoop f rest s2
            end
        end
  end.

Record Target := mkTarget {
  targetType : string;
  WebSocketDebuggerURL : string;
}.

(** What the browser side answers while the pump starts. *)
Record Startup := mkStartup {
  targets : option (list Target);   (* GET /json decoded, None when it fails *)
  dialFails : bool;
  startScreencastFails : bool;
}.

Definition pageTarget (ts : list Target) : string :=
  match filter (fun t => String.eqb (targetType t) "page"
                         && negb (String.eqb (WebSocketDebuggerURL t) "") = true) ts with
  | t :: _ => WebSocketDebuggerURL t
  | [] => ""
  end.

Definition initialLoopState : LoopState :=
  {| idCounter := 100; frameCount := 0; dcSends := 0; acks := 0 |}.

Definition streamScreencastToDataChannel (su : Startup) (f : Faults)
    (input : list Incoming) : list Event :=
  match targets su with
  | None => []
  | Some ts =>
      if String.eqb (pageTarget ts) "" then []
      else if dialFails su then []
      else
        [EvWriteJSON 1 "Page.enable"; EvWriteJSON 10 "Page.bringToFront";
         EvWriteJSON 3 "Page.navigate"; EvWriteJSON 2 "Page.startScreencast"]
        ++ (if startScreencastFails su then []
            else readLoop f input initialLoopState)
  end.

(** An event on the data channel. *)
Definition isSend (e : Event) : Prop :=
  match e with
  | EvSendText _ _ | EvSend _ _ => True
  | _ => False
  end.

(** The loop state after a frame that made [sends] chunk sends and one ack. *)
Definition frameState (s : LoopState) (sends : nat) : LoopState :=
  {| idCounter := wrap64 (idCounter s + 1); frameCount := wrap64 (frameCount s + 1);
     dcSends := (S (dcSends s) + sends)%nat; acks := S (acks s) |}.

End Pump.

(** ** Callers of Stop *)

Module Schedule.
Import SessionPkg.

(** The two parties that stop a session. [Stop] runs wholly under the
    session's mutex and [DeleteSession] wholly under the manager's, so a
    concurrent execution is a sequence of these calls in some order. *)
Inductive Caller :=
| LifetimeTimer      (* the auto-cleanup goroutine: s.Stop() *)
| ExplicitDelete.    (* sessionManager.DeleteSession(s.ID) *)

Definition call (l : loc) (id : string) (c : Caller) (W : World) : World :=
  match c with
  | LifetimeTimer => autoCleanup l W
  | ExplicitDelete => DeleteSession id W
  end.

Definition run (l : loc) (id : string) (cs : list Caller) (W : World) : World :=
  foldl (fun W c => call l id c W) W cs.

(** How often the call [c] occurs in a log. *)
Definition calls (c : OSCall) (log : list OSCall) : nat :=
  length (filter (fun x => x = c) log).

End Schedule.

(** ** Concrete runs *)

Module Examples.
Import SessionPkg Main.

(** The browser prints a warning and then, [t] after launch, announces
    its debugger. *)
Definition announce (t : Z) : Stderr :=
  {| lines := [(0, "[0101/000000:WARNING:sandbox] running without sandbox");
               (t, "DevTools listening on ws://127.0.0.1:9222/devtools/browser/b1")];
     closes := None; tie_url := false |}.

(** A line of 65536 bytes, one more than the scanner can hold. *)
Definition longLine : string := N.iter 65536 (String "x") "".

(** A launch that draws [id]; the clock reads 0 for CreatedAt and is
    120 ns further when it is read for ExpiresAt. *)
Definition launch (id : string) (t : Z) : Launch :=
  {| uuid := id; nowCreated := 0; nowExpires := 120;
     pipeFails := false; startFails := false;
     stderr := announce t |}.

(** The world after one successful [CreateSession] of five minutes. *)
Definition created : (loc + NewSessionError) * World :=
  CreateSession (5 * minute) (launch "s1" second) NewManager.

Definition serving (W : World) (host : string) : State :=
  {| world := W; whipResources := ∅; pcs := ∅; APP_HOST := host |}.

Definition request (method id : string) : Request :=
  {| Method := method; Host := "localhost:8080"; XForwardedProto := "";
     ContentType := ""; TLS := false; ContentLength := 0;
     Body := {| segments := []; final := EOF |};
     var_id := id; var_resourceId := "" |}.

Definition unreachable : ProxyPkg.Dial :=
  {| ProxyPkg.dialFails := true; ProxyPkg.upgradeFails := None |}.

(** The same request as a reverse proxy forwards it. *)
Definition forwarded (proto : string) (r : Request) : Request :=
  {| Method := Method r; Host := Host r; XForwardedProto := proto;
     ContentType := ContentType r; TLS := TLS r; ContentLength := ContentLength r;
     Body := Body r; var_id := var_id r; var_resourceId := var_resourceId r |}.

(** A WHIP POST whose body of [len] announced bytes arrives as [segs]. *)
Definition offerPost (id : string) (len : Z) (segs : list bytes) : Request :=
  {| Method := "POST"; Host := "localhost:8080"; XForwardedProto := "";
     ContentType := "application/sdp"; TLS := false; ContentLength := len;
     Body := {| segments := segs; final := EOF |};
     var_id := id; var_resourceId := "" |}.

Definition negotiated (rid : string) : Negotiation :=
  {| newPCFails := false; resourceUUID := rid; setRemoteFails := false;
     createAnswerFails := false; setLocalFails := false |}.

(** The four bytes [v=0\n]. *)
Definition sdp : bytes := [Byte.x76; Byte.x3d; Byte.x30; Byte.x0a].

(** The state after resource [r1] was created against session [s1]. *)
Definition ingesting : Outcome * State :=
  whipHandler (negotiated "r1") (offerPost "s1" 4 [sdp]) (serving created.2 "").

(** Pump inputs: a data channel and debugger connection without
    failures, a channel whose [n]-th send fails, a browser with one page
    target, and three screencast frames: one whose image data is not
    base64, and two carrying the one-byte image [QQ==]. *)
Definition quiet : Pump.Faults :=
  {| Pump.dcFails := fun _ => false; Pump.ackFails := fun _ => false |}.

Definition failing (n : nat) : Pump.Faults :=
  {| Pump.dcFails := fun k => Nat.eqb k n; Pump.ackFails := fun _ => false |}.

Definition started : Pump.Startup :=
  {| Pump.targets := Some [ {| Pump.targetType := "browser"; Pump.WebSocketDebuggerURL := "ws://127.0.0.1:9222/devtools/browser/b1" |};
                            {| Pump.targetType := "page"; Pump.WebSocketDebuggerURL := "ws://127.0.0.1:9222/devtools/page/p1" |} ];
     Pump.dialFails := false; Pump.startScreencastFails := false |}.

Definition frameMsg (data : string) (sid : Z) : Pump.CDPMessage :=
  {| Pump.msgID := 0; Pump.msgMethod := "Page.screencastFrame";
     Pump.Params := Some {| Pump.Data := data; Pump.SessionID := sid |} |}.

Definition frame (data : string) (sid : Z) : Pump.Incoming :=
  Pump.Message (frameMsg data sid).

Definition bootstrap : list Pump.Event :=
  [Pump.EvWriteJSON 1 "Page.enable"; Pump.EvWriteJSON 10 "Page.bringToFront";
   Pump.EvWriteJSON 3 "Page.navigate"; Pump.EvWriteJSON 2 "Page.startScreencast"].

End Examples.

(** ** Package proxy: one direction of the relay *)

Module Relay.
Import Main.

(** A websocket message as [ReadMessage] returns it. *)
Record WSMessage := mkWSMessage {
  msgType : Z;          (* websocket.TextMessage, websocket.BinaryMessage, ... *)
  payload : bytes;
}.

(** One of the two forwarding goroutines of [ProxyCDP]:
    [for { read from src; on error return; write to dst; on error return }].
    [reads] is what the source connection delivers ([None] for a read
    error; an exhausted list is a closed connection); [writeFails k]
    tells whether the [k]-th write on the destination fails. The result
    lists the writes made, each with its success. *)
Fixpoint forward (reads : list (option WSMessage)) (writeFails : nat -> bool)
    (k : nat) : list (WSMessage * bool) :=
  match reads with
  | [] => []
  | None :: _ => []
  | Some m :: rest =>
      if writeFails k then [(m, false)]
      else (m, true) :: forward rest writeFails (S k)
  end.

End Relay.

(** ** Package main: the automation ticker of the pump *)

Module Automation.

(** fmt.Sprintf("window.scrollBy(0, %d);", y) for the two values of [y]. *)
Definition scrollExpr (y : Z) : string :=
  if y =? 100 then "window.scrollBy(0, 100);" else "window.scrollBy(0, -100);".

(** The goroutine [for range ticker.C { ... }] over [ticks] ticks,
    [scrollDown] being its flag and [k] the number of writes it made:
    the expressions it evaluates through Runtime.evaluate, each with the
    success of its write; a failed write ends the goroutine. *)
Fixpoint ticker (ticks : nat) (scrollDown : bool) (writeFails : nat -> bool)
    (k : nat) : list (Z * string * bool) :=
  match ticks with
  | O => []
  | S n =>
      let y := if scrollDown then 100 else -100 in
      if writeFails k then [(y, scrollExpr y, false)]
      else (y, scrollExpr y, true) :: ticker n (negb scrollDown) writeFails (S k)
  end.

End Automation.

(** ** Package main: the MJPEG preview loop *)

Module Preview.
Import Main Pump.

(** What the read loop of [previewHandler] does, in program order. *)
Inductive PvEvent :=
| PvRead (i : Incoming)                    (* conn.ReadJSON returned *)
| PvCreatePart (size : nat) (ok : bool)    (* m.CreatePart, Content-Length size *)
| PvWrite (data : bytes) (ok : bool)       (* part.Write(data) *)
| PvAck (sessionId : Z) (ok : bool).       (* Page.screencastFrameAck *)

(** The failures the environment injects into the handling of the
    [k]-th frame that decodes. *)
Record PvFaults := mkPvFaults {
  createPartFails : nat -> bool;
  partWriteFails : nat -> bool;
  pvAckFails : nat -> bool;
}.

(** The loop [for { conn.ReadJSON(&msg) ... }]: [ReadJSON] fails on a
    read error and on a message that is not JSON alike, and both leave
    the loop; [k] counts the frames that decoded so far. *)
Fixpoint previewLoop (pf : PvFaults) (input : list Incoming) (k : nat) : list PvEvent :=
  match input with
  | [] => []
  | ReadFails :: _ => [PvRead ReadFails]
  | Malformed :: _ => [PvRead Malformed]
  | Message msg :: rest =>
      PvRead (Message msg) ::
      if String.eqb (msgMethod msg) "Page.screencastFrame" then
        match Params msg with
        | None => previewLoop pf rest k
        | Some params =>
            match DecodeString (Data params) with
            | None => previewLoop pf rest k
            | Some data =>
                if createPartFails pf k then [PvCreatePart (length data) false]
                else if partWriteFails pf k
                then [PvCreatePart (length data) true; PvWrite data false]
                else if pvAckFails pf k
                then [PvCreatePart (length data) true; PvWrite data true;
                      PvAck (SessionID params) false]
                else PvCreatePart (length data) true :: PvWrite data true
                       :: PvAck (SessionID params) true :: previewLoop pf rest (S k)
            end
        end
      else previewLoop pf rest k
  end.

(** An event that reports a failure. *)
Definition pvFailed (e : PvEvent) : Prop :=
  match e with
  | PvRead ReadFails | PvRead Malformed => True
  | PvRead (Message _) => False
  | PvCreatePart _ ok | PvWrite _ ok | PvAck _ ok => ok = false
  end.

End Preview.

(** ** Observations on states and traces *)

Module Observe.
Import SessionPkg Main Pump.

(** A line of standard error the scanner delivers and the pattern does
    not match. *)
Definition passedOver (l : Z * string) : Prop :=
  tooLong l.2 = false /\ findSubmatch (dropCR l.2) = None.

(** Every registered id leads to a session object that carries this id. *)
Definition registry_ok (W : World) : Prop :=
  forall id l, sessions W !! id = Some l ->
    exists s, heap W !! l = Some s /\ ID s = id.

(** The command ids and the screencast session ids of the acks of a trace. *)
Definition ackIds (tr : list Event) : list Z :=
  omap (fun e => match e with EvAck id _ _ => Some id | _ => None end) tr.

Definition ackSessionIds (tr : list Event) : list Z :=
  omap (fun e => match e with EvAck _ sid _ => Some sid | _ => None end) tr.

(** The messages a trace read; a failed read delivers none. *)
Definition reads (tr : list Event) : list Incoming :=
  omap (fun e => match e with
                 | EvRead ReadFails => None
                 | EvRead i => Some i
                 | _ => None
                 end) tr.

(** The screencast session id of an input that is a frame whose
    parameters and image data decode. *)
Definition decodableFrame (i : Incoming) : option Z :=
  match i with
  | Message m =>
      if String.eqb (msgMethod m) "Page.screencastFrame" then
        match Params m with
        | Some p => match DecodeString (Data p) with
                    | Some _ => Some (SessionID p)
                    | None => None
                    end
        | None => None
        end
      else None
  | _ => None
  end.

(** An input the read loop passes over: malformed JSON or a message
    that is not a screencast frame. *)
Definition ignored (i : Incoming) : Prop :=
  match i with
  | Malformed => True
  | Message m => msgMethod m <> "Page.screencastFrame"
  | ReadFails => False
  end.

Definition isTerminal (s : PeerConnectionState) : bool :=
  match s with
  | PCFailed | PCClosed => true
  | _ => false
  end.

End Observe.

(** * Properties *)

Import SessionPkg Main Pump Schedule Examples.
Import Relay Automation Observe Preview.

(** ** Session lifecycle *)

Section StopFacts.

Lemma Stop_sessions l W : sessions (Stop l W) = sessions W.
Proof.
  unfold Stop. destruct (heap W !! l) as [s|]; [|done].
  by destruct (isClosed s).
Qed.

Lemma Stop_open l W s :
  heap W !! l = Some s -> isClosed s = false ->
  heap (Stop l W) !! l = Some (set_isClosed true s) /\
  oslog (Stop l W) = oslog W ++ [CtxCancel (ID s); RemoveAll (profileDir (ID s))].
Proof.
  intros Hl Hc. unfold Stop. rewrite Hl, Hc. simpl.
  split; [apply lookup_insert_eq | done].
Qed.

Lemma Stop_closed l W s :
  heap W !! l = Some s -> isClosed s = true -> Stop l W = W.
Proof. intros Hl Hc. unfold Stop. by rewrite Hl, Hc. Qed.

(** Once the session is closed no caller touches the log or the flag. *)
Lemma run_closed l cs : forall W s,
  heap W !! l = Some s -> isClosed s = true ->
  sessions W !! ID s = Some l \/ sessions W !! ID s = None ->
  heap (run l (ID s) cs W) !! l = Some s /\
  oslog (run l (ID s) cs W) = oslog W.
Proof.
  induction cs as [|c cs IH]; intros W s Hl Hc Hreg; [done|].
  change (run l (ID s) (c :: cs) W) with (run l (ID s) cs (call l (ID s) c W)).
  destruct c; simpl.
  - unfold autoCleanup. rewrite (Stop_closed l W s Hl Hc). by apply IH.
  - unfold DeleteSession. destruct Hreg as [Hreg|Hreg]; rewrite Hreg.
    + rewrite (Stop_closed l W s Hl Hc).
      destruct (IH {| heap := heap W; sessions := delete (ID s) (sessions W);
                      oslog := oslog W |} s) as [H1 H2]; simpl; auto.
      right. apply lookup_delete_eq.
    + by apply IH; [..|right].
Qed.

Lemma calls_app c l1 l2 : calls c (l1 ++ l2) = (calls c l1 + calls c l2)%nat.
Proof. unfold calls. by rewrite filter_app, length_app. Qed.

End StopFacts.

(** C8. Stop is idempotent: however many times the lifetime timer and an
    explicit delete invoke it, and in whatever order, the session ends
    closed, and the log gains exactly one cancellation of the subprocess
    and exactly one removal of the private data directory. *)
Theorem Stop_idempotent (W : World) (l : loc) (s : Session) (c : Caller) (cs : list Caller) :
  heap W !! l = Some s ->
  isClosed s = false ->
  sessions W !! ID s = Some l ->
  let W' := run l (ID s) (c :: cs) W in
  heap W' !! l = Some (set_isClosed true s) /\
  oslog W' = oslog W ++ [CtxCancel (ID s); RemoveAll (profileDir (ID s))] /\
  calls (CtxCancel (ID s)) (oslog W') = S (calls (CtxCancel (ID s)) (oslog W)) /\
  calls (RemoveAll (profileDir (ID s))) (oslog W')
    = S (calls (RemoveAll (profileDir (ID s))) (oslog W)).
Proof.
  intros Hl Hc Hreg W'.
  destruct (Stop_open l W s Hl Hc) as [Hh Hlog].
  assert (Hrun : heap W' !! l = Some (set_isClosed true s) /\
                 oslog W' = oslog (Stop l W)).
  { subst W'.
    change (run l (ID s) (c :: cs) W) with (run l (ID s) cs (call l (ID s) c W)).
    destruct c; simpl.
    - unfold autoCleanup.
      apply (run_closed l cs (Stop l W) (set_isClosed true s)); auto.
      left. simpl. by rewrite Stop_sessions.
    - unfold DeleteSession. rewrite Hreg.
      apply (run_closed l cs
               {| heap := heap (Stop l W); sessions := delete (ID s) (sessions (Stop l W));
                  oslog := oslog (Stop l W) |} (set_isClosed true s)); auto.
      right. simpl. apply lookup_delete_eq. }
  destruct Hrun as [H1 H2]. rewrite H2, Hlog.
  repeat split; auto.
  - rewrite calls_app. unfold calls at 2.
    rewrite filter_cons_True by done. rewrite filter_cons_False by discriminate.
    rewrite filter_nil. simpl. lia.
  - rewrite calls_app. unfold calls at 2.
    rewrite filter_cons_False by discriminate. rewrite filter_cons_True by done.
    rewrite filter_nil. simpl. lia.
Qed.

Lemma Stop_idempotent_witness :
  let s := {| ID := "s1"; CreatedAt := 0; ExpiresAt := 120 + 5 * minute;
              wsURL := "ws://127.0.0.1:9222/devtools/browser/b1";
              isClosed := false |} in
  let W := created.2 in
  heap W !! 0%nat = Some s /\
  let W' := run 0%nat (ID s) [ExplicitDelete; LifetimeTimer; ExplicitDelete] W in
  heap W' !! 0%nat = Some (set_isClosed true s) /\
  oslog W' = oslog W ++ [CtxCancel (ID s); RemoveAll (profileDir (ID s))] /\
  calls (CtxCancel (ID s)) (oslog W') = S (calls (CtxCancel (ID s)) (oslog W)) /\
  calls (RemoveAll (profileDir (ID s))) (oslog W')
    = S (calls (RemoveAll (profileDir (ID s))) (oslog W)).
Proof.
  intros s W. split; [vm_compute; reflexivity |].
  apply Stop_idempotent; vm_compute; reflexivity.
Defined.

(** [Stop] leaves the registry alone, so a lookup answers after the
    lifetime timer what it answered before. *)
Lemma autoCleanup_keeps_registry l id W :
  GetSession id (autoCleanup l W) = GetSession id W.
Proof. unfold GetSession, autoCleanup. by rewrite Stop_sessions. Qed.

(** The boundary of the startup timeout: an announcement strictly before
    five seconds is returned, one strictly after is a timeout. *)
Lemma parseDevToolsURL_boundary t :
  (0 <= t < startupTimeout ->
   parseDevToolsURL (announce t) = inl "ws://127.0.0.1:9222/devtools/browser/b1") /\
  (startupTimeout < t -> parseDevToolsURL (announce t) = inr ErrTimeout).
Proof.
  unfold parseDevToolsURL. simpl. split; intros H.
  - replace (t <? startupTimeout) with true by (symmetry; apply Z.ltb_lt; lia).
    reflexivity.
  - replace (t <? startupTimeout) with false by (symmetry; apply Z.ltb_ge; lia).
    replace (t =? startupTimeout) with false by (symmetry; apply Z.eqb_neq; lia).
    reflexivity.
Qed.

(** Whatever makes [NewSession] fail, it allocates no session and calls
    neither [Stop] nor [os.RemoveAll]. *)
Lemma NewSession_failure d e W err W' :
  NewSession d e W = (inr err, W') ->
  heap W' = heap W /\ sessions W' = sessions W /\
  exists cs, oslog W' = oslog W ++ cs /\
             Forall (fun c => forall path, c <> RemoveAll path) cs.
Proof.
  unfold NewSession.
  destruct (pipeFails e); [|destruct (startFails e);
    [|destruct (parseDevToolsURL (stderr e)) as [url|perr]]];
    intros H; try (injection H as <- <-); try discriminate; simpl;
    repeat split; try reflexivity.
  - exists [CtxCancel (uuid e)]. split; [done|]. repeat constructor; discriminate.
  - exists [CtxCancel (uuid e)]. split; [done|]. repeat constructor; discriminate.
  - exists [CmdStart (uuid e); CtxCancel (uuid e); ProcessKill (uuid e)].
    split; [by rewrite <- app_assoc|]. repeat constructor; discriminate.
Qed.

(** C1 (fails on the code). When the lifetime timer has stopped a
    session the manager still holds it: the session is closed, yet
    [GetSession] finds it, the debugger route answers 502 when the dead
    browser cannot be dialled, and the session is still listed. *)
Theorem expired_session_still_found :
  let W := autoCleanup 0%nat created.2 in
  created.1 = inl 0%nat /\
  (isClosed <$> heap W !! 0%nat) = Some true /\
  GetSession "s1" W = (Some 0%nat, true) /\
  cdpProxyHandler unreachable (request "GET" "s1") (serving W "") = ProxyPkg.StatusBadGateway /\
  ProxyPkg.StatusBadGateway <> StatusNotFound /\
  ListSessions W = [0%nat].
Proof. vm_compute. repeat split; congruence. Qed.

(** C5 (fails on the code). A browser that announces its debugger 5.1
    seconds after launch makes [CreateSession] fail with the timeout
    error and register nothing; the subprocess is cancelled and killed,
    but no call removes its data directory. *)
Theorem startup_timeout_keeps_data_dir :
  let r := CreateSession (5 * minute) (launch "s2" 5100000000) NewManager in
  r.1 = inr (ErrParse ErrTimeout) /\
  sessions r.2 = ∅ /\ heap r.2 = ∅ /\
  oslog r.2 = [CmdStart "s2"; CtxCancel "s2"; ProcessKill "s2"] /\
  calls (RemoveAll (profileDir "s2")) (oslog r.2) = 0%nat.
Proof. vm_compute. repeat split. Qed.

(** ** Control plane *)

Lemma DeleteSession_absent id W :
  sessions W !! id = None -> DeleteSession id W = W.
Proof. intros H. unfold DeleteSession. by rewrite H. Qed.

Lemma DeleteSession_removes id W : sessions (DeleteSession id W) !! id = None.
Proof.
  unfold DeleteSession. destruct (sessions W !! id) eqn:E; [|done].
  simpl. apply lookup_delete_eq.
Qed.

(** The second DELETE of a session answers 200, not 404. *)
Lemma second_delete_answers_200 :
  let r := request "DELETE" "s1" in
  let first := stopSessionHandler r (serving created.2 "") in
  let second := stopSessionHandler r first.2 in
  GetSession "s1" created.2 = (Some 0%nat, true) /\
  first.1 = 200 /\
  GetSession "s1" (world first.2) = (None, false) /\
  second.1 = 200 /\ second.1 <> StatusNotFound.
Proof. vm_compute. repeat split; congruence. Qed.

(** C4 (amended). Two DELETEs of one session id in a row both answer
    200; after the first the id is absent from the registry, the second
    changes nothing, and the routes that look the session up answer
    not-found: GetSession reports absence, every request on
    /sessions/{id}/cdp answers 404, and every POST on /sessions/{id}/whip
    answers 404. *)
Theorem delete_twice (st : State) (r : Request) :
  let first := stopSessionHandler r st in
  let second := stopSessionHandler r first.2 in
  first.1 = StatusOK /\
  GetSession (var_id r) (world first.2) = (None, false) /\
  second.1 = StatusOK /\
  second.2 = first.2 /\
  (forall d r', var_id r' = var_id r ->
     cdpProxyHandler d r' first.2 = StatusNotFound) /\
  (forall n r', var_id r' = var_id r -> Method r' = "POST" ->
     whipHandler n r' first.2 = (Respond StatusNotFound None, first.2)).
Proof.
  intros first second. subst first second. unfold stopSessionHandler. simpl.
  pose proof (DeleteSession_removes (var_id r) (world st)) as Hgone.
  assert (Hget : GetSession (var_id r) (DeleteSession (var_id r) (world st)) = (None, false))
    by (unfold GetSession; by rewrite Hgone).
  repeat split; auto.
  - rewrite DeleteSession_absent by done. by destruct st.
  - intros d r' Hid. unfold cdpProxyHandler. simpl. by rewrite Hid, Hget.
  - intros n r' Hid Hm. unfold whipHandler. simpl. by rewrite Hm, Hid, Hget.
Qed.

Lemma delete_twice_witness :
  let r := request "DELETE" "s1" in
  let first := stopSessionHandler r (serving created.2 "") in
  let second := stopSessionHandler r first.2 in
  GetSession "s1" created.2 = (Some 0%nat, true) /\
  first.1 = StatusOK /\
  GetSession "s1" (world first.2) = (None, false) /\
  second.1 = StatusOK /\
  second.2 = first.2 /\
  cdpProxyHandler unreachable (request "GET" "s1") first.2 = StatusNotFound /\
  whipHandler (negotiated "r1") (offerPost "s1" 4 [sdp]) first.2
    = (Respond StatusNotFound None, first.2).
Proof.
  intros r first second.
  destruct (delete_twice (serving created.2 "") r) as (H1 & H2 & H3 & H4 & H5 & H6).
  split; [reflexivity|].
  split; [exact H1|]. split; [exact H2|]. split; [exact H3|]. split; [exact H4|].
  split; [exact (H5 unreachable (request "GET" "s1") eq_refl) |
          exact (H6 (negotiated "r1") (offerPost "s1" 4 [sdp]) eq_refl eq_refl)].
Defined.

(** With APP_HOST set, a request forwarded with [X-Forwarded-Proto: http]
    gets a [ws] URL. *)
Lemma forwarded_http_gives_ws :
  let r := forwarded "http" (request "POST" "") in
  let out := createSessionHandler (Some 5) (launch "s1" second) r
               (serving NewManager "lab.example.org") in
  out.1.1 = StatusOK /\
  (CDPURL <$> out.1.2) = Some "ws://lab.example.org/sessions/s1/cdp" /\
  resolveScheme (serving NewManager "lab.example.org") r = "http".
Proof. vm_compute. repeat split. Qed.

(** C6 (amended). The derived scheme is the value of X-Forwarded-Proto
    when that header is present; without it the scheme is https exactly
    when the request arrived over TLS or APP_HOST is set, and http
    otherwise. The websocket scheme is wss exactly when the derived
    scheme is https. With APP_HOST set to h, and the header absent or
    equal to https, every cdp_url starts with wss://h. *)
Theorem url_derivation (st : State) (r : Request) :
  (XForwardedProto r <> "" -> resolveScheme st r = XForwardedProto r) /\
  (XForwardedProto r = "" ->
     (resolveScheme st r = "https" <-> TLS r = true \/ APP_HOST st <> "") /\
     (resolveScheme st r = "https" \/ resolveScheme st r = "http")) /\
  (resolveWSScheme st r = "wss" <-> resolveScheme st r = "https") /\
  (resolveWSScheme st r = "wss" \/ resolveWSScheme st r = "ws") /\
  (APP_HOST st <> "" ->
   XForwardedProto r = "" \/ XForwardedProto r = "https" ->
   forall s, CDPURL (sessionResponse st r s)
             = "wss://" +:+ APP_HOST st +:+ "/sessions/" +:+ ID s +:+ "/cdp").
Proof.
  assert (Hfwd : XForwardedProto r <> "" -> resolveScheme st r = XForwardedProto r).
  { intros Hx. unfold resolveScheme.
    by destruct (String.eqb_spec (XForwardedProto r) ""). }
  assert (Hplain : XForwardedProto r = "" ->
            resolveScheme st r
            = if TLS r then "https"
              else if String.eqb (APP_HOST st) "" then "http" else "https").
  { intros Hx. unfold resolveScheme. rewrite Hx. simpl.
    destruct (TLS r); [done|]. by destruct (String.eqb (APP_HOST st) ""). }
  assert (Hws : resolveWSScheme st r = "wss" <-> resolveScheme st r = "https").
  { unfold resolveWSScheme.
    destruct (String.eqb_spec (resolveScheme st r) "https"); split; congruence. }
  split; [exact Hfwd|]. split.
  { intros Hx. rewrite (Hplain Hx).
    destruct (TLS r); [split; [split|]; auto|].
    destruct (String.eqb_spec (APP_HOST st) "") as [Ha|Ha].
    - split; [|auto]. split; [discriminate|]. intros [?|?]; congruence.
    - split; [split|]; auto. }
  split; [exact Hws|]. split.
  { unfold resolveWSScheme. destruct (String.eqb (resolveScheme st r) "https"); auto. }
  intros Ha Hx s.
  assert (Hs : resolveScheme st r = "https").
  { destruct Hx as [Hx|Hx].
    - rewrite (Hplain Hx). destruct (TLS r); [done|].
      by destruct (String.eqb_spec (APP_HOST st) "").
    - rewrite Hfwd; [done|]. rewrite Hx. discriminate. }
  unfold sessionResponse. simpl.
  unfold resolveWSScheme. rewrite Hs. simpl.
  unfold resolveHost. by destruct (String.eqb_spec (APP_HOST st) "").
Qed.

Lemma url_derivation_witness :
  CDPURL (sessionResponse (serving created.2 "lab.example.org")
            (forwarded "https" (request "GET" "s1"))
            {| ID := "s1"; CreatedAt := 0; ExpiresAt := 120 + 5 * minute;
               wsURL := "ws://127.0.0.1:9222/devtools/browser/b1";
               isClosed := false |})
  = "wss://lab.example.org/sessions/s1/cdp".
Proof.
  apply (url_derivation (serving created.2 "lab.example.org")
           (forwarded "https" (request "GET" "s1")));
    [discriminate | right; reflexivity].
Defined.

(** ** WHIP surface *)

Lemma state_change_removes pc rid state st :
  state = PCFailed \/ state = PCClosed ->
  whipResources (connectionStateChange pc rid state st) !! rid = None.
Proof.
  intros [->| ->]; unfold connectionStateChange, OnConnectionStateChange; simpl;
    apply lookup_delete_eq.
Qed.

(** Removal by the callback is idempotent. *)
Lemma state_change_idempotent rid state st :
  OnConnectionStateChange rid state (OnConnectionStateChange rid state st)
  = OnConnectionStateChange rid state st.
Proof.
  destruct state; simpl; try reflexivity;
    unfold with_resources; simpl; f_equal; apply delete_delete_eq.
Qed.

(** The callback never calls [Close]. *)
Lemma state_change_keeps_closeCalls pc rid state st pc' :
  (closeCalls <$> pcs (connectionStateChange pc rid state st) !! pc')
  = (closeCalls <$> pcs st !! pc').
Proof.
  assert (H : (closeCalls <$> alter (set_pcState state) pc (pcs st) !! pc')
              = (closeCalls <$> pcs st !! pc')).
  { rewrite lookup_alter. case_decide; [subst|done]. by destruct (pcs st !! pc'). }
  unfold connectionStateChange, OnConnectionStateChange.
  destruct state; simpl; exact H.
Qed.

(** C7 (fails on the code). Resource r1 is registered with peer
    connection 0. When that connection fails, the callback removes r1
    from the registry, and [Close] has been called on the connection
    zero times; the DELETE route, on the same state, calls it once. *)
Theorem failed_connection_never_closed :
  let st := ingesting.2 in
  let failed := connectionStateChange 0%nat "r1" PCFailed st in
  let deleted := whipResourceHandler
                   {| Method := "DELETE"; Host := ""; XForwardedProto := "";
                      ContentType := ""; TLS := false; ContentLength := 0;
                      Body := {| segments := []; final := EOF |};
                      var_id := "s1"; var_resourceId := "r1" |} st in
  ingesting.1 = Respond StatusCreated (Some "/sessions/s1/whip/r1") /\
  (PeerConnection <$> whipResources st !! "r1") = Some 0%nat /\
  whipResources failed !! "r1" = None /\
  (pcState <$> pcs failed !! 0%nat) = Some PCFailed /\
  (closeCalls <$> pcs failed !! 0%nat) = Some 0%nat /\
  deleted.1 = StatusOK /\
  whipResources deleted.2 !! "r1" = None /\
  (closeCalls <$> pcs deleted.2 !! 0%nat) = Some 1%nat.
Proof. vm_compute. repeat split. Qed.

(** The one read is enough exactly in the plain case: the whole body
    arrives as one segment of the announced length. *)
Lemma readOffer_one_segment r body :
  ContentLength r = Z.of_nat (length body) ->
  segments (Body r) = [body] ->
  readOffer r = Offer body.
Proof.
  intros Hlen Hseg. unfold readOffer, BodyRead. rewrite Hlen, Hseg.
  replace (Z.of_nat (length body) <? 0) with false by (symmetry; apply Z.ltb_ge; lia).
  rewrite Nat2Z.id. simpl.
  rewrite take_ge by lia. rewrite Nat.sub_diag. simpl. by rewrite app_nil_r.
Qed.

(** C10 (fails on the code). A four-byte offer that arrives in two
    reads of two bytes is handed to the peer connection as its first two
    bytes followed by two zero bytes; a body of unknown length (chunked
    transfer, ContentLength -1) makes the handler panic. *)
Theorem offer_read_once :
  let split := whipHandler (negotiated "r1")
                 (offerPost "s1" 4 [[Byte.x76; Byte.x3d]; [Byte.x30; Byte.x0a]])
                 (serving created.2 "") in
  let chunked := whipHandler (negotiated "r1")
                   (offerPost "s1" (-1) [[Byte.x76; Byte.x3d]; [Byte.x30; Byte.x0a]])
                   (serving created.2 "") in
  split.1 = Respond StatusCreated (Some "/sessions/s1/whip/r1") /\
  (remoteOffer <$> pcs split.2 !! 0%nat)
    = Some (Some [Byte.x76; Byte.x3d; Byte.x00; Byte.x00]) /\
  [Byte.x76; Byte.x3d; Byte.x00; Byte.x00] <> sdp /\
  (remoteOffer <$> pcs ingesting.2 !! 0%nat) = Some (Some sdp) /\
  chunked.1 = Panic.
Proof. vm_compute. repeat split. discriminate. Qed.

(** ** Screencast pump *)

Section ChunkLoop.

Variable f : Faults.

Lemma sendChunks_done data i k :
  (length data <= i)%nat -> sendChunks f data i k = [].
Proof.
  intros H. simp sendChunks.
  destruct (decide (i < length data)%nat); [lia | reflexivity].
Qed.

Lemma sendChunks_step data i k :
  (i < length data)%nat ->
  sendChunks f data i k =
    let chunk := take (Nat.min chunkSize (length data - i)) (drop i data) in
    if dcFails f k then [EvSend chunk false]
    else EvSend chunk true :: sendChunks f data (i + chunkSize) (S k).
Proof.
  intros H. simp sendChunks.
  destruct (decide (i < length data)%nat) as [Hlt|Hge]; [|lia]. simp sendChunks.
  simpl.
  replace (Nat.min chunkSize (length data - i))
    with ((if decide (length data < i + chunkSize)%nat
           then length data else (i + chunkSize)%nat) - i)%nat
    by (case_decide; lia).
  reflexivity.
Qed.

(** The loop only ever sends binary chunks. *)
Lemma sendChunks_only_sends data : forall n i k,
  (length data - i = n)%nat ->
  Forall (fun e => exists c ok, e = EvSend c ok) (sendChunks f data i k).
Proof.
  induction n as [n IH] using lt_wf_ind. intros i k Hn.
  destruct (decide (i < length data)%nat) as [Hi|Hi].
  - rewrite sendChunks_step by done. simpl.
    destruct (dcFails f k).
    + repeat constructor. eauto.
    + constructor; [eauto|].
      apply (IH (length data - (i + chunkSize))%nat); [|done].
      pose proof chunkSize_pos. lia.
  - rewrite sendChunks_done by lia. constructor.
Qed.

(** When none of the sends the loop makes fails, it sends the rest of
    the payload, cut every [chunkSize] bytes. The loop makes its [j]-th
    send (counted from 0) when [i + j * chunkSize] is inside the
    payload; it is send number [k + j] of the channel. *)
Lemma sendChunks_ok data : forall n i k,
  (length data - i = n)%nat ->
  (forall j, (i + j * chunkSize < length data)%nat -> dcFails f (k + j) = false) ->
  exists cs : list bytes,
    sendChunks f data i k = map (fun c => EvSend c true) cs /\
    concat cs = drop i data /\
    Forall (fun c => (0 < length c <= chunkSize)%nat) cs /\
    (forall j c, cs !! j = Some c -> (S j < length cs)%nat -> length c = chunkSize).
Proof.
  induction n as [n IH] using lt_wf_ind. intros i k Hn Hok.
  pose proof chunkSize_pos as Hpos.
  destruct (decide (i < length data)%nat) as [Hi|Hi].
  - rewrite sendChunks_step by done. simpl.
    assert (Hk : dcFails f k = false).
    { rewrite <- (Nat.add_0_r k). apply Hok. simpl. lia. }
    rewrite Hk.
    destruct (IH (length data - (i + chunkSize))%nat ltac:(lia)
                 (i + chunkSize)%nat (S k) eq_refl) as (cs & Hcs & Hcat & Hlen & Hfull).
    { intros j Hj. replace (S k + j)%nat with (k + S j)%nat by lia.
      apply Hok. simpl. lia. }
    exists (take (Nat.min chunkSize (length data - i)) (drop i data) :: cs).
    split; [simpl; by rewrite Hcs|]. split; [|split].
    + simpl. rewrite Hcat.
      destruct (decide (chunkSize <= length data - i)%nat) as [Hc|Hc].
      * rewrite Nat.min_l by lia. rewrite <- drop_drop. apply take_drop.
      * rewrite Nat.min_r by lia. rewrite take_ge by (rewrite length_drop; lia).
        rewrite (drop_ge data (i + chunkSize)) by lia. apply app_nil_r.
    + constructor; [|done]. rewrite length_take, length_drop. lia.
    + intros [|j] c Hj Hlt; simpl in Hj, Hlt.
      * injection Hj as <-. rewrite length_take, length_drop.
        destruct cs as [|c' cs']; [simpl in Hlt; lia|].
        destruct (decide (i + chunkSize < length data)%nat) as [Hm|Hm]; [lia|].
        rewrite sendChunks_done in Hcs by lia. discriminate.
      * apply (Hfull j c Hj). lia.
  - rewrite sendChunks_done by lia. exists []. repeat split; auto.
    + simpl. symmetry. apply drop_ge. lia.
    + intros j c Hj. by rewrite lookup_nil in Hj.
Qed.

End ChunkLoop.

Lemma chunkSize_value : Z.of_nat chunkSize = 60000.
Proof. Transparent chunkSize. unfold chunkSize. Opaque chunkSize. lia. Qed.

(** One turn of the read loop on a frame that decodes and whose
    frame-start is sent. *)
Lemma readLoop_frame f msg p data rest s :
  msgMethod msg = "Page.screencastFrame" ->
  Params msg = Some p ->
  DecodeString (Data p) = Some data ->
  dcFails f (dcSends s) = false ->
  readLoop f (Message msg :: rest) s =
    EvRead (Message msg) :: EvSendText (length data) true
      :: sendChunks f data 0 (S (dcSends s))
      ++ EvAck (wrap64 (idCounter s + 1)) (SessionID p) (negb (ackFails f (acks s)))
      :: readLoop f rest (frameState s (length (sendChunks f data 0 (S (dcSends s))))).
Proof.
  intros Hm Hp Hd Hok. cbn [readLoop]. rewrite Hm, Hp, Hd. cbn.
  rewrite Hok. reflexivity.
Qed.

(** A frame whose parameters or image data do not decode is dropped. *)
Lemma readLoop_undecodable f msg rest s :
  msgMethod msg = "Page.screencastFrame" ->
  Params msg = None \/
  (exists p, Params msg = Some p /\ DecodeString (Data p) = None) ->
  exists s', readLoop f (Message msg :: rest) s = EvRead (Message msg) :: readLoop f rest s'.
Proof.
  intros Hm [Hp|(p & Hp & Hd)]; cbn [readLoop]; rewrite Hm, Hp; cbn;
    [|rewrite Hd]; eauto.
Qed.

Lemma sum_list_cons (n : nat) (ns : list nat) :
  sum_list (n :: ns) = (n + sum_list ns)%nat.
Proof. reflexivity. Qed.

Lemma sum_lengths (cs : list bytes) :
  sum_list (length <$> cs) = length (concat cs).
Proof.
  induction cs as [|c cs IH]; [done|].
  rewrite fmap_cons, sum_list_cons, IH. simpl. by rewrite length_app.
Qed.

(** C2. For a frame the pump forwards (its parameters and image data
    decode and none of the sends of this frame fails: not the
    frame-start, which is send number [dcSends s] of the channel, and not
    the chunk sends that follow it, the [j]-th of which exists when
    [j * 60000] is less than the payload length), the pump sends one
    frame-start whose size is the decoded length, then the payload as
    binary chunks in order: their concatenation is the payload, so their
    lengths sum to the size; every chunk but the last has exactly 60,000
    bytes and the last between 1 and 60,000; a payload of 60,001 bytes
    gives chunks of 60,000 and 1 bytes, an empty payload gives none; the
    ack follows the chunks. What the data channel does to later frames
    plays no role. *)
Theorem frame_chunking f msg p data rest s :
  msgMethod msg = "Page.screencastFrame" ->
  Params msg = Some p ->
  DecodeString (Data p) = Some data ->
  dcFails f (dcSends s) = false ->
  (forall j, (j * chunkSize < length data)%nat ->
     dcFails f (S (dcSends s) + j) = false) ->
  exists (cs : list bytes) (id : Z) (ok : bool) (tail : list Event),
    readLoop f (Message msg :: rest) s =
      EvRead (Message msg) :: EvSendText (length data) true
        :: map (fun c => EvSend c true) cs ++ EvAck id (SessionID p) ok :: tail /\
    concat cs = data /\
    sum_list (length <$> cs) = length data /\
    Z.of_nat chunkSize = 60000 /\
    Forall (fun c => (0 < length c <= chunkSize)%nat) cs /\
    (forall j c, cs !! j = Some c -> (S j < length cs)%nat -> length c = chunkSize) /\
    (length data = (chunkSize + 1)%nat -> length <$> cs = [chunkSize; 1%nat]) /\
    (length data = 0%nat -> cs = []).
Proof.
  intros Hm Hp Hd Hstart Hok.
  destruct (sendChunks_ok f data (length data) 0%nat (S (dcSends s)))
    as (cs & Hcs & Hcat & Hlen & Hfull); [lia | exact Hok |].
  rewrite drop_0 in Hcat.
  assert (Hsum : sum_list (length <$> cs) = length data)
    by (by rewrite sum_lengths, Hcat).
  exists cs, (wrap64 (idCounter s + 1)), (negb (ackFails f (acks s))),
    (readLoop f rest (frameState s (length (sendChunks f data 0 (S (dcSends s)))))).
  split; [|repeat split; auto using chunkSize_value].
  - rewrite (readLoop_frame f msg p data rest s Hm Hp Hd Hstart).
    by rewrite Hcs.
  - intros H. pose proof chunkSize_value as Hv.
    destruct cs as [|c1 [|c2 cs2]];
      rewrite ?fmap_cons, ?sum_list_cons in Hsum.
    + simpl in Hsum. lia.
    + apply Forall_cons in Hlen as [Hc1 _]. simpl in Hsum. lia.
    + apply Forall_cons in Hlen as [Hc1 Hlen].
      apply Forall_cons in Hlen as [Hc2 Hlen].
      assert (H1 : length c1 = chunkSize)
        by (apply (Hfull 0%nat); [done | simpl; lia]).
      destruct cs2 as [|c3 cs3].
      * simpl in Hsum. simpl. f_equal; [done|]. f_equal. lia.
      * assert (H2 : length c2 = chunkSize)
          by (apply (Hfull 1%nat); [done | simpl; lia]).
        lia.
  - intros H. destruct cs as [|c1 cs1]; [done|].
    apply Forall_cons in Hlen as [Hc1 _].
    rewrite fmap_cons, sum_list_cons in Hsum. lia.
Qed.

(** The first frame of a run in which a later send fails (send number 5,
    the chunk of the third frame) is forwarded whole. *)
Lemma frame_chunking_witness :
  exists (cs : list bytes) (id : Z) (ok : bool) (tail : list Event),
    readLoop (failing 5) [frame "QQ==" 8; frame "QQ==" 9; frame "QQ==" 10]
      initialLoopState =
      EvRead (frame "QQ==" 8) :: EvSendText 1 true
        :: map (fun c => EvSend c true) cs ++ EvAck id 8 ok :: tail /\
    concat cs = [Byte.x41] /\
    sum_list (length <$> cs) = 1%nat.
Proof.
  destruct (frame_chunking (failing 5) (frameMsg "QQ==" 8)
              {| Data := "QQ=="; SessionID := 8 |} [Byte.x41]
              [frame "QQ==" 9; frame "QQ==" 10] initialLoopState
              eq_refl eq_refl eq_refl eq_refl)
    as (cs & id & ok & tail & Hrun & Hcat & Hsum & _).
  - intros [|j] Hj; [reflexivity|].
    pose proof chunkSize_pos. simpl in Hj. lia.
  - exists cs, id, ok, tail. split; [exact Hrun | split; [exact Hcat | exact Hsum]].
Defined.

(** Whatever the read loop does next, it starts with a read. *)
Lemma readLoop_head f i rest s :
  exists tl, readLoop f (i :: rest) s = EvRead i :: tl.
Proof. destruct i as [| |msg]; cbn [readLoop]; eauto. Qed.

(** C3. A Page.screencastFrame event as the debugger delivers it (its
    parameters decode and its image data is base64) is consumed in one of
    two ways. When the frame-start cannot be sent on the data channel the
    loop is left there: nothing is written and nothing more is read.
    Otherwise the pump makes the sends of the frame on the data channel
    and then writes exactly one Page.screencastFrameAck, carrying the
    frame's screencast session id and the next counter value; no other
    ack and no read lies between the read of the frame and this ack, and
    what follows the ack starts with the read of the next message. *)
Theorem ack_per_decoded_frame f msg p data rest s :
  msgMethod msg = "Page.screencastFrame" ->
  Params msg = Some p ->
  DecodeString (Data p) = Some data ->
  (dcFails f (dcSends s) = true /\
   readLoop f (Message msg :: rest) s
   = [EvRead (Message msg); EvSendText (length data) false])
  \/
  (dcFails f (dcSends s) = false /\
   exists (sends : list Event) (s' : LoopState),
     readLoop f (Message msg :: rest) s =
       EvRead (Message msg) :: sends
         ++ EvAck (wrap64 (idCounter s + 1)) (SessionID p) (negb (ackFails f (acks s)))
         :: readLoop f rest s' /\
     Forall isSend sends /\
     idCounter s' = wrap64 (idCounter s + 1) /\
     (forall i rest', rest = i :: rest' ->
        exists tl, readLoop f rest s' = EvRead i :: tl)).
Proof.
  intros Hm Hp Hd.
  destruct (dcFails f (dcSends s)) eqn:Hok; [left | right]; (split; [reflexivity|]).
  { cbn [readLoop]. rewrite Hm, Hp, Hd. cbn. by rewrite Hok. }
  exists (EvSendText (length data) true :: sendChunks f data 0 (S (dcSends s))),
    (frameState s (length (sendChunks f data 0 (S (dcSends s))))).
  split; [|split; [|split; [reflexivity|]]].
  - by rewrite (readLoop_frame f msg p data rest s Hm Hp Hd Hok).
  - constructor; [exact I|].
    eapply Forall_impl; [apply (sendChunks_only_sends f data _ 0%nat _ eq_refl)|].
    intros e (c & ok & ->). exact I.
  - intros i rest' ->. apply readLoop_head.
Qed.

Lemma ack_per_decoded_frame_witness :
  exists (sends : list Event) (s' : LoopState),
    readLoop quiet [frame "QQ==" 8; frame "QQ==" 9] initialLoopState =
      EvRead (frame "QQ==" 8) :: sends
        ++ EvAck 101 8 true :: readLoop quiet [frame "QQ==" 9] s' /\
    Forall isSend sends /\
    idCounter s' = 101 /\
    exists tl, readLoop quiet [frame "QQ==" 9] s' = EvRead (frame "QQ==" 9) :: tl.
Proof.
  destruct (ack_per_decoded_frame quiet (frameMsg "QQ==" 8)
              {| Data := "QQ=="; SessionID := 8 |} [Byte.x41] [frame "QQ==" 9]
              initialLoopState eq_refl eq_refl eq_refl)
    as [[H _]|(_ & sends & s' & H1 & H2 & H3 & H4)]; [discriminate H|].
  exists sends, s'.
  split; [exact H1 | split; [exact H2 | split; [exact H3 | exact (H4 _ _ eq_refl)]]].
Defined.

(** C9 (fails on the code). When the send of a binary chunk fails the
    pump still writes the ack, reads the next frame and forwards it; only
    a failed frame-start send ends the read loop. *)
Theorem chunk_send_failure_keeps_reading :
  streamScreencastToDataChannel started (failing 1) [frame "QQ==" 8; frame "QQ==" 9]
  = bootstrap ++
    [EvRead (frame "QQ==" 8); EvSendText 1 true; EvSend [Byte.x41] false;
     EvAck 101 8 true;
     EvRead (frame "QQ==" 9); EvSendText 1 true; EvSend [Byte.x41] true;
     EvAck 102 9 true] /\
  streamScreencastToDataChannel started (failing 0) [frame "QQ==" 8; frame "QQ==" 9]
  = bootstrap ++ [EvRead (frame "QQ==" 8); EvSendText 1 false].
Proof. split; vm_compute; reflexivity. Qed.

(** * Further properties of the code *)

(** ** Session manager *)

(** Lookups after an update, at the types of the heap and the registry. *)
Lemma heap_insert_eq (h : gmap loc Session) l s : <[l := s]> h !! l = Some s.
Proof. apply lookup_insert_eq. Qed.

Lemma heap_insert_ne (h : gmap loc Session) l l' s :
  l <> l' -> <[l := s]> h !! l' = h !! l'.
Proof. apply lookup_insert_ne. Qed.

Lemma registry_insert_eq (m : gmap string loc) id l : <[id := l]> m !! id = Some l.
Proof. apply lookup_insert_eq. Qed.

Lemma registry_insert_ne (m : gmap string loc) id id' l :
  id <> id' -> <[id := l]> m !! id' = m !! id'.
Proof. apply lookup_insert_ne. Qed.

Lemma registry_delete_eq (m : gmap string loc) id : delete id m !! id = None.
Proof. apply lookup_delete_eq. Qed.

Lemma registry_delete_ne (m : gmap string loc) id id' :
  id <> id' -> delete id m !! id' = m !! id'.
Proof. apply lookup_delete_ne. Qed.

Lemma NewSession_success d e W l W' :
  NewSession d e W = (inl l, W') ->
  exists url,
    parseDevToolsURL (stderr e) = inl url /\
    l = fresh (dom (heap W)) /\
    heap W !! l = None /\
    heap W' = <[l := {| ID := uuid e; CreatedAt := nowCreated e; ExpiresAt := nowExpires e + d;
                        wsURL := url; isClosed := false |}]> (heap W) /\
    sessions W' = sessions W /\
    oslog W' = oslog W ++ [CmdStart (uuid e)].
Proof.
  unfold NewSession.
  destruct (pipeFails e); [discriminate|].
  destruct (startFails e); [discriminate|].
  destruct (parseDevToolsURL (stderr e)) as [url|perr]; [|discriminate].
  simpl. intros H. injection H as <- <-. exists url. simpl.
  repeat split; try reflexivity.
  apply not_elem_of_dom. apply is_fresh.
Qed.

(** X1. A successful CreateSession puts a new, open session object on
    the heap, with the id drawn, the announced debugger URL, the first
    clock reading as creation time and the second clock reading plus the
    duration as expiry, and registers it under its id; every other id and
    every existing session object is left as it was, and the only OS call
    is the start of the subprocess. *)
Theorem CreateSession_registers d e W url :
  pipeFails e = false ->
  startFails e = false ->
  parseDevToolsURL (stderr e) = inl url ->
  exists l W',
    CreateSession d e W = (inl l, W') /\
    heap W !! l = None /\
    heap W' !! l = Some {| ID := uuid e; CreatedAt := nowCreated e; ExpiresAt := nowExpires e + d;
                           wsURL := url; isClosed := false |} /\
    GetSession (uuid e) W' = (Some l, true) /\
    (forall id, id <> uuid e -> GetSession id W' = GetSession id W) /\
    (forall l' s', heap W !! l' = Some s' -> heap W' !! l' = Some s') /\
    oslog W' = oslog W ++ [CmdStart (uuid e)].
Proof.
  intros Hp Hs Hu.
  destruct (NewSession d e W) as [[l|err] W1] eqn:HN.
  2:{ unfold NewSession in HN. rewrite Hp, Hs, Hu in HN. discriminate. }
  destruct (NewSession_success d e W l W1 HN)
    as (url' & Hu' & Hl & Hfresh & Hheap & Hsess & Hlog).
  assert (url' = url) by congruence. subst url'.
  assert (Hat : heap W1 !! l
                = Some {| ID := uuid e; CreatedAt := nowCreated e; ExpiresAt := nowExpires e + d;
                          wsURL := url; isClosed := false |})
    by (rewrite Hheap; apply lookup_insert_eq).
  eexists l, _. unfold CreateSession. rewrite HN, Hat. cbn [ID].
  split; [reflexivity|]. split; [exact Hfresh|]. split; [exact Hat|].
  split.
  { unfold GetSession. cbn [sessions].
    by rewrite registry_insert_eq. }
  split; [|split; [|exact Hlog]].
  - intros id Hid. unfold GetSession. cbn [sessions].
    rewrite registry_insert_ne by done. by rewrite Hsess.
  - intros l' s' Hl'. cbn [heap]. rewrite Hheap.
    rewrite heap_insert_ne; [done|]. intros ->. congruence.
Qed.

Lemma CreateSession_registers_witness :
  exists l W',
    CreateSession (5 * minute) (launch "s1" second) NewManager = (inl l, W') /\
    GetSession "s1" W' = (Some l, true).
Proof.
  destruct (CreateSession_registers (5 * minute) (launch "s1" second) NewManager
              "ws://127.0.0.1:9222/devtools/browser/b1" eq_refl eq_refl eq_refl)
    as (l & W' & H1 & _ & _ & H2 & _).
  exists l, W'. split; [exact H1 | exact H2].
Defined.

(** X2. A failed CreateSession registers nothing and puts no session on
    the heap. Every failure cancels the subprocess context; when the
    pipe or the start failed no subprocess was started and none is
    killed; when the debugger URL was not found the started subprocess is
    cancelled and then killed. *)
Theorem CreateSession_failure d e W err W' :
  CreateSession d e W = (inr err, W') ->
  heap W' = heap W /\ sessions W' = sessions W /\
  oslog W' = oslog W ++
    match err with
    | ErrParse _ => [CmdStart (uuid e); CtxCancel (uuid e); ProcessKill (uuid e)]
    | _ => [CtxCancel (uuid e)]
    end.
Proof.
  unfold CreateSession.
  destruct (NewSession d e W) as [[l|err'] W1] eqn:HN.
  { destruct (heap W1 !! l); discriminate. }
  intros H. injection H as <- <-.
  unfold NewSession in HN.
  destruct (pipeFails e); [injection HN as <- <-; by repeat split|].
  destruct (startFails e); [injection HN as <- <-; by repeat split|].
  destruct (parseDevToolsURL (stderr e)) as [url|perr]; [discriminate|].
  injection HN as <- <-. simpl. repeat split. by rewrite <- app_assoc.
Qed.

Lemma CreateSession_failure_witness :
  let r := CreateSession minute (launch "s3" (6 * second)) created.2 in
  heap r.2 = heap created.2 /\ sessions r.2 = sessions created.2 /\
  oslog r.2 = oslog created.2 ++ [CmdStart "s3"; CtxCancel "s3"; ProcessKill "s3"].
Proof.
  exact (CreateSession_failure minute (launch "s3" (6 * second)) created.2
           (ErrParse ErrTimeout) _ eq_refl).
Defined.

Lemma CreateSession_success d e W l W' :
  CreateSession d e W = (inl l, W') ->
  exists s,
    heap W !! l = None /\
    heap W' = <[l := s]> (heap W) /\
    sessions W' = <[uuid e := l]> (sessions W) /\
    ID s = uuid e /\ CreatedAt s = nowCreated e /\ ExpiresAt s = nowExpires e + d /\
    isClosed s = false.
Proof.
  unfold CreateSession.
  destruct (NewSession d e W) as [[l1|err] W1] eqn:HN; [|discriminate].
  destruct (NewSession_success d e W l1 W1 HN)
    as (url & _ & _ & Hfresh & Hheap & Hsess & _).
  rewrite Hheap, heap_insert_eq. cbn [ID]. intros H. injection H as <- <-.
  eexists. cbn [heap sessions]. rewrite Hsess.
  repeat split; first [exact Hfresh | reflexivity].
Qed.

Lemma registry_ok_Stop l W : registry_ok W -> registry_ok (Stop l W).
Proof.
  intros Hok id l' Hreg. rewrite Stop_sessions in Hreg.
  destruct (Hok id l' Hreg) as (s & Hs & Hid).
  unfold Stop. destruct (heap W !! l) as [s0|] eqn:Hl; [|eauto].
  destruct (isClosed s0); [eauto|]. cbn [heap].
  destruct (decide (l = l')) as [->|Hne].
  - rewrite heap_insert_eq. exists (set_isClosed true s0).
    split; [done|]. simpl. congruence.
  - rewrite heap_insert_ne by done. eauto.
Qed.

Lemma registry_ok_DeleteSession id W : registry_ok W -> registry_ok (DeleteSession id W).
Proof.
  intros Hok. unfold DeleteSession.
  destruct (sessions W !! id) as [l|] eqn:Hl; [|done].
  intros id' l' Hreg. cbn [sessions heap] in *.
  destruct (decide (id = id')) as [->|Hne].
  - by rewrite registry_delete_eq in Hreg.
  - rewrite registry_delete_ne in Hreg by done.
    by apply (registry_ok_Stop l W Hok).
Qed.

Lemma registry_ok_CreateSession d e W :
  registry_ok W -> registry_ok (CreateSession d e W).2.
Proof.
  intros Hok.
  destruct (CreateSession d e W) as [[l|err] W'] eqn:HC; cbn [snd].
  - destruct (CreateSession_success d e W l W' HC)
      as (s & Hfresh & Hheap & Hsess & Hid & _).
    intros id l' Hreg. rewrite Hsess in Hreg. rewrite Hheap.
    destruct (decide (uuid e = id)) as [<-|Hne].
    + rewrite registry_insert_eq in Hreg. injection Hreg as <-.
      rewrite heap_insert_eq. eauto.
    + rewrite registry_insert_ne in Hreg by done.
      destruct (Hok id l' Hreg) as (s' & Hs' & Hid').
      rewrite heap_insert_ne by (intros ->; congruence). eauto.
  - unfold CreateSession in HC.
    destruct (NewSession d e W) as [[l1|err1] W1] eqn:HN.
    { destruct (heap W1 !! l1); discriminate. }
    injection HC as <- <-.
    destruct (NewSession_failure d e W err1 W1 HN) as (Hh & Hs & _).
    intros id l' Hreg. rewrite Hs in Hreg. rewrite Hh. by apply Hok.
Qed.

(** X3. The registry keeps its shape: if every registered id leads to a
    session object carrying that id, the same holds after CreateSession
    (successful or not), after DeleteSession of any id and after the
    lifetime timer stopped any session; the empty manager has the shape. *)
Theorem registry_invariant W :
  registry_ok W ->
  registry_ok NewManager /\
  (forall d e, registry_ok (CreateSession d e W).2) /\
  (forall id, registry_ok (DeleteSession id W)) /\
  (forall l, registry_ok (autoCleanup l W)).
Proof.
  intros Hok. split; [|split; [|split]].
  - intros id l H. unfold NewManager in H. cbn [sessions] in H.
    by rewrite lookup_empty in H.
  - intros d e. by apply registry_ok_CreateSession.
  - intros id. by apply registry_ok_DeleteSession.
  - intros l. by apply registry_ok_Stop.
Qed.

Lemma registry_ok_empty : registry_ok NewManager.
Proof. intros id l H. cbn in H. by rewrite lookup_empty in H. Qed.

Lemma registry_invariant_witness :
  registry_ok created.2 /\
  registry_ok (DeleteSession "s1" NewManager) /\
  registry_ok (autoCleanup 0%nat NewManager).
Proof.
  destruct (registry_invariant NewManager registry_ok_empty) as (_ & H1 & H2 & H3).
  split; [exact (H1 (5 * minute) (launch "s1" second)) | split; [apply H2 | apply H3]].
Defined.

(** X4. DeleteSession of a registered id stops the session before it
    removes the entry: afterwards the id is absent and the session object
    is closed; the OS log gains the cancel and the removal of the data
    directory when the session was still open and nothing when it was
    already closed; every other id and every other session object is
    untouched. *)
Theorem DeleteSession_existing id l s W :
  sessions W !! id = Some l ->
  heap W !! l = Some s ->
  let W' := DeleteSession id W in
  GetSession id W' = (None, false) /\
  (forall id', id' <> id -> GetSession id' W' = GetSession id' W) /\
  heap W' !! l = Some (set_isClosed true s) /\
  (forall l', l' <> l -> heap W' !! l' = heap W !! l') /\
  oslog W' = oslog W ++
    (if isClosed s then [] else [CtxCancel (ID s); RemoveAll (profileDir (ID s))]).
Proof.
  intros Hreg Hl W'. subst W'. unfold DeleteSession. rewrite Hreg.
  unfold GetSession. cbn [sessions heap oslog].
  rewrite registry_delete_eq, Stop_sessions.
  split; [done|]. split.
  { intros id' Hne. by rewrite registry_delete_ne. }
  unfold Stop. rewrite Hl. destruct (isClosed s) eqn:Hc; cbn [heap oslog].
  - split; [|split; [done | by rewrite app_nil_r]].
    rewrite Hl. f_equal. destruct s. unfold set_isClosed. simpl in *. by subst.
  - split; [apply heap_insert_eq|]. split; [|done].
    intros l' Hne. by rewrite heap_insert_ne.
Qed.

Lemma DeleteSession_existing_witness :
  let s := {| ID := "s1"; CreatedAt := 0; ExpiresAt := 120 + 5 * minute;
              wsURL := "ws://127.0.0.1:9222/devtools/browser/b1";
              isClosed := false |} in
  let W' := DeleteSession "s1" created.2 in
  GetSession "s1" W' = (None, false) /\
  heap W' !! 0%nat = Some (set_isClosed true s) /\
  oslog W' = oslog created.2 ++ [CtxCancel "s1"; RemoveAll (profileDir "s1")].
Proof.
  intros s W'.
  destruct (DeleteSession_existing "s1" 0%nat s created.2 eq_refl eq_refl)
    as (H1 & _ & H2 & _ & H3).
  split; [exact H1 | split; [exact H2 | exact H3]].
Defined.

(** ** Control plane handlers *)

Lemma wrap64_small z : - 2^63 <= z < 2^63 -> wrap64 z = z.
Proof. intros H. unfold wrap64. rewrite Z.mod_small; lia. Qed.

(** What a 200 from [createSessionHandler] says about the new state. *)
Lemma createSessionHandler_ok decoded e r st code resp st' :
  createSessionHandler decoded e r st = (code, Some resp, st') ->
  exists l s,
    code = StatusOK /\
    CreateSession
      (wrap64 ((if match decoded with Some n => n | None => 5 end <=? 0 then 5
                else match decoded with Some n => n | None => 5 end) * minute))
      e (world st) = (inl l, world st') /\
    heap (world st') !! l = Some s /\
    resp = sessionResponse st' r s /\
    whipResources st' = whipResources st /\ pcs st' = pcs st /\
    APP_HOST st' = APP_HOST st.
Proof.
  unfold createSessionHandler. cbv zeta.
  destruct (CreateSession _ e (world st)) as [[l|err] W1] eqn:HC; [|discriminate].
  destruct (heap W1 !! l) as [s|] eqn:Hl; [|discriminate].
  intros H. injection H as <- <- <-. exists l, s. by repeat split.
Qed.

(** X5. A request whose body does not decode, or asks for zero or a
    negative number of minutes, gets a session of five minutes: in the
    response the creation time is the first clock reading of NewSession
    and the expiry is its second clock reading plus 300 seconds, so the
    expiry lies at least 300 seconds after the creation time when the
    clock did not go back between the two readings. *)
Theorem default_duration decoded e r st code resp st' :
  decoded = None \/ (exists n, decoded = Some n /\ n <= 0) ->
  createSessionHandler decoded e r st = (code, Some resp, st') ->
  respCreatedAt resp = nowCreated e /\
  respExpiresAt resp = nowExpires e + 300 * second /\
  (nowCreated e <= nowExpires e ->
   respCreatedAt resp + 300 * second <= respExpiresAt resp).
Proof.
  intros Hd H.
  destruct (createSessionHandler_ok decoded e r st code resp st' H)
    as (l & s & _ & HC & Hl & -> & _).
  destruct (CreateSession_success _ e (world st) l (world st') HC)
    as (s' & _ & Hheap & _ & _ & Hc & He & _).
  rewrite Hheap, heap_insert_eq in Hl. injection Hl as ->.
  cbn [sessionResponse respExpiresAt respCreatedAt]. rewrite He, Hc.
  assert (Hm : (if match decoded with Some n => n | None => 5 end <=? 0 then 5
                else match decoded with Some n => n | None => 5 end) = 5).
  { destruct Hd as [->|(n & -> & Hn)]; [reflexivity|].
    by replace (n <=? 0) with true by (symmetry; apply Z.leb_le; lia). }
  rewrite Hm.
  assert (Hw : wrap64 (5 * minute) = 300 * second) by reflexivity.
  rewrite Hw. repeat split; lia.
Qed.

Lemma default_duration_witness :
  exists code resp st',
    createSessionHandler (Some (-3)) (launch "s1" second) (request "POST" "")
      (serving NewManager "") = (code, Some resp, st') /\
    respCreatedAt resp = 0 /\
    respExpiresAt resp = 120 + 300 * second.
Proof.
  destruct (createSessionHandler (Some (-3)) (launch "s1" second)
              (request "POST" "") (serving NewManager ""))
    as [[code [resp|]] st'] eqn:E; [|vm_compute in E; discriminate].
  exists code, resp, st'. split; [reflexivity|].
  destruct (default_duration (Some (-3)) (launch "s1" second) (request "POST" "")
              (serving NewManager "") code resp st') as (H1 & H2 & _);
    [right; exists (-3); split; [reflexivity | lia] | exact E |].
  split; [exact H1 | exact H2].
Defined.

(** X6. A request for n minutes, n between 1 and 153,722,867 (the
    largest count whose nanoseconds fit an int64), gets a session of n
    minutes: in the response the creation time is the first clock reading
    of NewSession and the expiry is its second clock reading plus n
    minutes, so the expiry lies at least n minutes after the creation
    time when the clock did not go back between the two readings. *)
Theorem requested_duration n e r st code resp st' :
  1 <= n <= 153722867 ->
  createSessionHandler (Some n) e r st = (code, Some resp, st') ->
  respCreatedAt resp = nowCreated e /\
  respExpiresAt resp = nowExpires e + n * (60 * second) /\
  (nowCreated e <= nowExpires e ->
   respCreatedAt resp + n * (60 * second) <= respExpiresAt resp).
Proof.
  intros Hn H.
  destruct (createSessionHandler_ok (Some n) e r st code resp st' H)
    as (l & s & _ & HC & Hl & -> & _).
  destruct (CreateSession_success _ e (world st) l (world st') HC)
    as (s' & _ & Hheap & _ & _ & Hc & He & _).
  rewrite Hheap, heap_insert_eq in Hl. injection Hl as ->.
  cbn [sessionResponse respExpiresAt respCreatedAt]. rewrite He, Hc.
  replace (n <=? 0) with false by (symmetry; apply Z.leb_gt; lia).
  assert (Hw : wrap64 (n * minute) = n * (60 * second))
    by (rewrite wrap64_small; unfold minute, second; lia).
  rewrite Hw. repeat split; lia.
Qed.

Lemma requested_duration_witness :
  exists code resp st',
    createSessionHandler (Some 7) (launch "s1" second) (request "POST" "")
      (serving NewManager "") = (code, Some resp, st') /\
    respCreatedAt resp = 0 /\
    respExpiresAt resp = 120 + 7 * (60 * second).
Proof.
  destruct (createSessionHandler (Some 7) (launch "s1" second)
              (request "POST" "") (serving NewManager ""))
    as [[code [resp|]] st'] eqn:E; [|vm_compute in E; discriminate].
  exists code, resp, st'. split; [reflexivity|].
  destruct (requested_duration 7 (launch "s1" second) (request "POST" "")
              (serving NewManager "") code resp st') as (H1 & H2 & _);
    [lia | exact E |].
  split; [exact H1 | exact H2].
Defined.

Lemma ListSessions_elem W l :
  l ∈ ListSessions W <-> exists id, sessions W !! id = Some l.
Proof.
  unfold ListSessions. rewrite list_elem_of_fmap. split.
  - intros ([id l'] & -> & Hin). exists id. by apply elem_of_map_to_list.
  - intros (id & Hid). exists (id, l). split; [done|]. by apply elem_of_map_to_list.
Qed.

(** Under the shape of the registry, the listing has an entry for an id
    exactly when the id is registered. *)
Lemma listed_iff_registered r st id :
  registry_ok (world st) ->
  (exists resp, resp ∈ (listSessionsHandler r st).2 /\ respID resp = id) <->
  is_Some (sessions (world st) !! id).
Proof.
  intros Hok. unfold listSessionsHandler. cbn [snd]. split.
  - intros (resp & Hin & Hid). apply list_elem_of_omap in Hin as (l & Hl & Hresp).
    apply ListSessions_elem in Hl as (id' & Hreg).
    destruct (Hok id' l Hreg) as (s & Hs & Hids).
    rewrite Hs in Hresp. cbn in Hresp. injection Hresp as <-.
    cbn in Hid. exists l. congruence.
  - intros (l & Hreg). destruct (Hok id l Hreg) as (s & Hs & Hids).
    exists (sessionResponse st r s). split; [|exact Hids].
    apply list_elem_of_omap. exists l. split.
    + apply ListSessions_elem. eauto.
    + by rewrite Hs.
Qed.

(** X7. Create then list: the SessionResponse a successful POST
    /sessions returned is an element of what GET /sessions answers (with
    status 200) for the same request in the state the POST left. *)
Theorem created_session_is_listed decoded e r st code resp st' :
  createSessionHandler decoded e r st = (code, Some resp, st') ->
  (listSessionsHandler r st').1 = StatusOK /\
  resp ∈ (listSessionsHandler r st').2.
Proof.
  intros H. split; [reflexivity|].
  destruct (createSessionHandler_ok decoded e r st code resp st' H)
    as (l & s & _ & HC & Hl & -> & _).
  destruct (CreateSession_success _ e (world st) l (world st') HC)
    as (s' & _ & _ & Hsess & _).
  unfold listSessionsHandler. cbn [snd]. apply list_elem_of_omap.
  exists l. split.
  - apply ListSessions_elem. exists (uuid e). rewrite Hsess.
    apply registry_insert_eq.
  - by rewrite Hl.
Qed.

Lemma created_session_is_listed_witness :
  exists code resp st',
    createSessionHandler (Some 5) (launch "s1" second) (request "POST" "")
      (serving NewManager "") = (code, Some resp, st') /\
    resp ∈ (listSessionsHandler (request "POST" "") st').2.
Proof.
  destruct (createSessionHandler (Some 5) (launch "s1" second)
              (request "POST" "") (serving NewManager ""))
    as [[code [resp|]] st'] eqn:E; [|vm_compute in E; discriminate].
  exists code, resp, st'. split; [reflexivity|].
  exact (proj2 (created_session_is_listed (Some 5) (launch "s1" second)
                  (request "POST" "") (serving NewManager "") code resp st' E)).
Defined.

(** X8. Delete then list: in a registry of the right shape, after
    DELETE /sessions/{id} the listing has an entry for an id exactly when
    that id is not the deleted one and had an entry before. *)
Theorem deleted_session_is_unlisted r r' st id :
  registry_ok (world st) ->
  let st' := (stopSessionHandler r st).2 in
  (exists resp, resp ∈ (listSessionsHandler r' st').2 /\ respID resp = id) <->
  id <> var_id r /\
  (exists resp, resp ∈ (listSessionsHandler r' st).2 /\ respID resp = id).
Proof.
  intros Hok st'. subst st'. unfold stopSessionHandler. cbn [snd].
  rewrite (listed_iff_registered r' st id Hok).
  rewrite listed_iff_registered
    by (cbn [world with_world]; by apply registry_ok_DeleteSession).
  cbn [world with_world].
  destruct (decide (id = var_id r)) as [->|Hne].
  - rewrite DeleteSession_removes. split; [intros [? ?]; discriminate | tauto].
  - assert (Heq : sessions (DeleteSession (var_id r) (world st)) !! id
                  = sessions (world st) !! id).
    { unfold DeleteSession.
      destruct (sessions (world st) !! var_id r) as [l|] eqn:E; [|done].
      cbn [sessions]. rewrite registry_delete_ne by done. by rewrite Stop_sessions. }
    rewrite Heq. tauto.
Qed.

Lemma deleted_session_is_unlisted_witness :
  let st := serving created.2 "" in
  let st' := (stopSessionHandler (request "DELETE" "s1") st).2 in
  (exists resp, resp ∈ (listSessionsHandler (request "GET" "") st').2
                /\ respID resp = "s1") <->
  "s1" <> "s1" /\
  (exists resp, resp ∈ (listSessionsHandler (request "GET" "") st).2
                /\ respID resp = "s1").
Proof.
  intros st.
  apply (deleted_session_is_unlisted (request "DELETE" "s1") (request "GET" "") st "s1").
  exact (registry_ok_CreateSession (5 * minute) (launch "s1" second) NewManager
           registry_ok_empty).
Defined.

(** ** Discovery of the debugger URL *)

Lemma strip_prefix_spec p : forall s r,
  strip_prefix p s = Some r <-> s = p +:+ r.
Proof.
  induction p as [|a p IH]; intros s r; simpl.
  - change ("" +:+ r) with r. split; congruence.
  - change (String a p +:+ r) with (String a (p +:+ r)).
    destruct s as [|b s]; [split; discriminate|].
    destruct (Ascii.eqb_spec a b) as [->|Hne].
    + rewrite IH. split; congruence.
    + split; [discriminate | congruence].
Qed.

Lemma findSubmatch_eq line :
  findSubmatch line =
    match strip_prefix "DevTools listening on ws://" line with
    | Some (String c rest) => Some ("ws://" +:+ String c rest)
    | _ => match line with
           | EmptyString => None
           | String _ tl => findSubmatch tl
           end
    end.
Proof. destruct line; reflexivity. Qed.

Lemma findSubmatch_sound line : forall url,
  findSubmatch line = Some url ->
  exists pre c rest,
    line = pre +:+ "DevTools listening on ws://" +:+ String c rest /\
    url = "ws://" +:+ String c rest.
Proof.
  induction line as [|a tl IH]; intros url; rewrite findSubmatch_eq.
  - destruct (strip_prefix _ "") as [[|c rest]|] eqn:E; try discriminate.
  - destruct (strip_prefix _ (String a tl)) as [[|c rest]|] eqn:E.
    + intros H. destruct (IH url H) as (pre & c & rest & -> & ->).
      by exists (String a pre), c, rest.
    + intros H. injection H as <-. apply strip_prefix_spec in E.
      exists "", c, rest. split; [exact E | reflexivity].
    + intros H. destruct (IH url H) as (pre & c & rest & -> & ->).
      by exists (String a pre), c, rest.
Qed.

Lemma findSubmatch_complete pre c rest :
  is_Some (findSubmatch (pre +:+ "DevTools listening on ws://" +:+ String c rest)).
Proof.
  induction pre as [|a pre IH]; rewrite findSubmatch_eq.
  - assert (E : strip_prefix "DevTools listening on ws://"
                  ("" +:+ "DevTools listening on ws://" +:+ String c rest)
                = Some (String c rest)) by (by apply strip_prefix_spec).
    rewrite E. eauto.
  - destruct (strip_prefix _ _) as [[|c' rest']|]; eauto.
Qed.

(** X9. The scanner's pattern: a line yields a URL exactly when it
    contains the text [DevTools listening on ws://] followed by at least
    one more character; the URL found starts with ws:// and runs to the
    end of the line. *)
Theorem findSubmatch_spec line :
  (forall url, findSubmatch line = Some url ->
     exists pre c rest,
       line = pre +:+ "DevTools listening on ws://" +:+ String c rest /\
       url = "ws://" +:+ String c rest) /\
  (forall pre c rest,
     line = pre +:+ "DevTools listening on ws://" +:+ String c rest ->
     is_Some (findSubmatch line)).
Proof.
  split; [apply findSubmatch_sound|].
  intros pre c rest ->. apply findSubmatch_complete.
Qed.

Lemma findSubmatch_spec_witness :
  is_Some (findSubmatch "[1:1] DevTools listening on ws://127.0.0.1:4/devtools/browser/x") /\
  findSubmatch "DevTools listening on ws://" = None.
Proof.
  split.
  - apply (proj2 (findSubmatch_spec _) "[1:1] " "1"%char "27.0.0.1:4/devtools/browser/x").
    reflexivity.
  - reflexivity.
Defined.

Lemma scanLines_passed pre ls closes :
  Forall passedOver pre -> scanLines (pre ++ ls) closes = scanLines ls closes.
Proof.
  induction 1 as [|[t raw] pre [Hfit Hno] _ IH]; [done|].
  simpl in Hfit, Hno. cbn [app scanLines]. by rewrite Hfit, Hno.
Qed.

Lemma scanLines_never_sends ls closes t url :
  Forall (fun tl : Z * string => findSubmatch (dropCR tl.2) = None) ls ->
  scanLines ls closes <> Sent t url.
Proof.
  induction 1 as [|[t' raw] ls Hno _ IH]; cbn [scanLines].
  - by destruct closes.
  - simpl in Hno. rewrite Hno. by destruct (tooLong raw).
Qed.

Lemma before_timeout r t :
  t < startupTimeout ->
  (t <? startupTimeout) || ((t =? startupTimeout) && tie_url r) = true.
Proof. intros H. by replace (t <? startupTimeout) with true by (symmetry; apply Z.ltb_lt; lia). Qed.

Lemma after_timeout r t :
  startupTimeout < t ->
  (t <? startupTimeout) || ((t =? startupTimeout) && tie_url r) = false.
Proof.
  intros H.
  replace (t <? startupTimeout) with false by (symmetry; apply Z.ltb_ge; lia).
  by replace (t =? startupTimeout) with false by (symmetry; apply Z.eqb_neq; lia).
Qed.

(** X10. When no line of standard error carries the announcement,
    parseDevToolsURL never returns a URL. When moreover every line fits
    the scanner's buffer (fewer than 65536 bytes), it fails with the
    scanner-closed error when the pipe closes before the five seconds are
    over, and with the timeout error when the pipe closes later or stays
    open. *)
Theorem no_announcement_fails r :
  Forall (fun tl : Z * string => findSubmatch (dropCR tl.2) = None) (lines r) ->
  (forall url, parseDevToolsURL r <> inl url) /\
  (Forall (fun tl : Z * string => tooLong tl.2 = false) (lines r) ->
     (forall t, closes r = Some t -> t < startupTimeout ->
        parseDevToolsURL r = inr ErrScannerClosed) /\
     (forall t, closes r = Some t -> startupTimeout < t ->
        parseDevToolsURL r = inr ErrTimeout) /\
     (closes r = None -> parseDevToolsURL r = inr ErrTimeout)).
Proof.
  intros Hn. split.
  { intros url. unfold parseDevToolsURL.
    destruct (scanLines (lines r) (closes r)) as [t u| t |] eqn:E.
    - by apply scanLines_never_sends in E.
    - destruct (_ || _); discriminate.
    - discriminate. }
  intros Hfit.
  assert (Hall : Forall passedOver (lines r)).
  { apply Forall_forall. intros l Hl. split.
    - by apply (proj1 (Forall_forall _ _) Hfit).
    - by apply (proj1 (Forall_forall _ _) Hn). }
  assert (E : scanLines (lines r) (closes r)
              = match closes r with Some t => Closed t | None => Silent end).
  { rewrite <- (app_nil_r (lines r)). by rewrite (scanLines_passed _ [] _ Hall). }
  unfold parseDevToolsURL. rewrite E.
  split; [|split].
  - intros t -> Ht. by rewrite before_timeout.
  - intros t -> Ht. by rewrite after_timeout.
  - by intros ->.
Qed.

Lemma no_announcement_fails_witness :
  parseDevToolsURL {| lines := [(0, "chrome: cannot open display")];
                      closes := Some second; tie_url := false |}
  = inr ErrScannerClosed.
Proof.
  apply (proj1 (proj2 (no_announcement_fails
                  {| lines := [(0, "chrome: cannot open display")];
                     closes := Some second; tie_url := false |}
                  ltac:(repeat constructor)) ltac:(repeat constructor))
           second eq_refl).
  reflexivity.
Defined.

(** X11. The first line that carries the announcement decides, when it
    and the lines before it fit the scanner's buffer (fewer than 65536
    bytes each): when it arrives before the five seconds are over its URL
    is returned, whatever precedes it without a match and whatever
    follows; when it arrives after them the result is the timeout
    error. *)
Theorem first_announcement_decides r noise t raw url rest :
  lines r = noise ++ (t, raw) :: rest ->
  Forall passedOver noise ->
  tooLong raw = false ->
  findSubmatch (dropCR raw) = Some url ->
  (t < startupTimeout -> parseDevToolsURL r = inl url) /\
  (startupTimeout < t -> parseDevToolsURL r = inr ErrTimeout).
Proof.
  intros Hl Hn Hfit Hm. unfold parseDevToolsURL.
  rewrite Hl, (scanLines_passed noise _ _ Hn). cbn [scanLines].
  rewrite Hfit, Hm.
  split; intros Ht; [by rewrite before_timeout | by rewrite after_timeout].
Qed.

Lemma first_announcement_decides_witness :
  parseDevToolsURL (announce (4900 * 1000000))
  = inl "ws://127.0.0.1:9222/devtools/browser/b1" /\
  parseDevToolsURL (announce (5100 * 1000000)) = inr ErrTimeout.
Proof.
  split.
  - apply (proj1 (first_announcement_decides (announce (4900 * 1000000))
                    [(0, "[0101/000000:WARNING:sandbox] running without sandbox")]
                    (4900 * 1000000)
                    "DevTools listening on ws://127.0.0.1:9222/devtools/browser/b1"
                    "ws://127.0.0.1:9222/devtools/browser/b1" []
                    eq_refl ltac:(repeat constructor) eq_refl eq_refl)).
    reflexivity.
  - apply (proj2 (first_announcement_decides (announce (5100 * 1000000))
                    [(0, "[0101/000000:WARNING:sandbox] running without sandbox")]
                    (5100 * 1000000)
                    "DevTools listening on ws://127.0.0.1:9222/devtools/browser/b1"
                    "ws://127.0.0.1:9222/devtools/browser/b1" []
                    eq_refl ltac:(repeat constructor) eq_refl eq_refl)).
    reflexivity.
Defined.

(** X29. A line of 65536 bytes or more ends the scan: when the scanner
    meets one, after lines that fit its buffer and carry no announcement,
    before the five seconds are over, parseDevToolsURL fails with the
    scanner-closed error, though the pipe is still open and whatever
    follows the line, the announcement included; when it meets the line
    after the five seconds the result is the timeout error. *)
Theorem long_line_closes_scanner r pre t raw rest :
  lines r = pre ++ (t, raw) :: rest ->
  Forall passedOver pre ->
  tooLong raw = true ->
  (t < startupTimeout -> parseDevToolsURL r = inr ErrScannerClosed) /\
  (startupTimeout < t -> parseDevToolsURL r = inr ErrTimeout).
Proof.
  intros Hl Hn Hlong. unfold parseDevToolsURL.
  rewrite Hl, (scanLines_passed pre _ _ Hn). cbn [scanLines]. rewrite Hlong.
  split; intros Ht; [by rewrite before_timeout | by rewrite after_timeout].
Qed.

Lemma long_line_closes_scanner_witness :
  parseDevToolsURL
    {| lines := [(0, "[0101/000000:WARNING:sandbox] running without sandbox");
                 (second, longLine);
                 (2 * second, "DevTools listening on ws://127.0.0.1:9222/devtools/browser/b1")];
       closes := None; tie_url := false |}
  = inr ErrScannerClosed.
Proof.
  apply (proj1 (long_line_closes_scanner
                  {| lines := [(0, "[0101/000000:WARNING:sandbox] running without sandbox");
                               (second, longLine);
                               (2 * second, "DevTools listening on ws://127.0.0.1:9222/devtools/browser/b1")];
                     closes := None; tie_url := false |}
                  [(0, "[0101/000000:WARNING:sandbox] running without sandbox")]
                  second longLine
                  [(2 * second, "DevTools listening on ws://127.0.0.1:9222/devtools/browser/b1")]
                  eq_refl ltac:(repeat constructor)
                  ltac:(vm_compute; reflexivity))).
  reflexivity.
Defined.

(** ** WHIP handlers *)

Lemma GetSession_registered id W l :
  sessions W !! id = Some l -> GetSession id W = (Some l, true).
Proof. intros H. unfold GetSession. by rewrite H. Qed.

Lemma GetSession_missing id W :
  sessions W !! id = None -> GetSession id W = (None, false).
Proof. intros H. unfold GetSession. by rewrite H. Qed.

Lemma eqb_false_of_ne (a b : string) : a <> b -> String.eqb a b = false.
Proof. intros H. by destruct (String.eqb_spec a b). Qed.

(** X12. The gates of the WHIP POST, in the order the handler applies
    them: a method other than POST gets 405 whatever the session; an
    unregistered session gets 404 whatever the content type; a content
    type other than application/sdp gets 400; a body whose read fails
    with an error other than EOF gets 400. In each case the state is
    unchanged: no peer connection is allocated and no resource stored. *)
Theorem whipHandler_gates n r st :
  (Method r <> "POST" ->
     whipHandler n r st = (Respond StatusMethodNotAllowed None, st)) /\
  (Method r = "POST" -> sessions (world st) !! var_id r = None ->
     whipHandler n r st = (Respond StatusNotFound None, st)) /\
  (Method r = "POST" -> is_Some (sessions (world st) !! var_id r) ->
   ContentType r <> "application/sdp" ->
     whipHandler n r st = (Respond StatusBadRequest None, st)) /\
  (Method r = "POST" -> is_Some (sessions (world st) !! var_id r) ->
   ContentType r = "application/sdp" -> 0 <= ContentLength r ->
   segments (Body r) = [] -> final (Body r) = ErrUnexpected ->
     whipHandler n r st = (Respond StatusBadRequest None, st)).
Proof.
  unfold whipHandler. repeat split.
  - intros Hm. by rewrite (eqb_false_of_ne _ _ Hm).
  - intros -> Hs. simpl. by rewrite (GetSession_missing _ _ Hs).
  - intros -> [l Hs] Hc. simpl. rewrite (GetSession_registered _ _ l Hs).
    by rewrite (eqb_false_of_ne _ _ Hc).
  - intros -> [l Hs] -> Hlen Hseg Hfin. simpl.
    rewrite (GetSession_registered _ _ l Hs).
    unfold readOffer, BodyRead. rewrite Hseg, Hfin.
    by replace (ContentLength r <? 0) with false by (symmetry; apply Z.ltb_ge; lia).
Qed.

Lemma whipHandler_gates_witness :
  whipHandler (negotiated "r1")
    {| Method := "POST"; Host := "localhost:8080"; XForwardedProto := "";
       ContentType := "application/json"; TLS := false; ContentLength := 4;
       Body := {| segments := [sdp]; final := EOF |};
       var_id := "s1"; var_resourceId := "" |}
    (serving created.2 "")
  = (Respond StatusBadRequest None, serving created.2 "").
Proof.
  apply (proj1 (proj2 (proj2 (whipHandler_gates (negotiated "r1") _ (serving created.2 ""))))).
  - reflexivity.
  - exists 0%nat. reflexivity.
  - discriminate.
Defined.

Lemma pcs_insert_ne (m : gmap loc PeerConn) pc pc' p :
  pc <> pc' -> <[pc := p]> m !! pc' = m !! pc'.
Proof. apply lookup_insert_ne. Qed.

Lemma pcs_insert_eq (m : gmap loc PeerConn) pc p : <[pc := p]> m !! pc = Some p.
Proof. apply lookup_insert_eq. Qed.

Lemma pcs_alter_ne (m : gmap loc PeerConn) g pc pc' :
  pc <> pc' -> alter g pc m !! pc' = m !! pc'.
Proof. apply lookup_alter_ne. Qed.

Lemma pcs_alter_eq (m : gmap loc PeerConn) g pc :
  alter g pc m !! pc = g <$> m !! pc.
Proof. apply lookup_alter_eq. Qed.

Lemma resources_insert_eq (m : gmap string WHIPResource) rid x :
  <[rid := x]> m !! rid = Some x.
Proof. apply lookup_insert_eq. Qed.

Lemma resources_insert_ne (m : gmap string WHIPResource) rid rid' x :
  rid <> rid' -> <[rid := x]> m !! rid' = m !! rid'.
Proof. apply lookup_insert_ne. Qed.

Lemma resources_delete_eq (m : gmap string WHIPResource) rid :
  delete rid m !! rid = None.
Proof. apply lookup_delete_eq. Qed.

Lemma resources_delete_ne (m : gmap string WHIPResource) rid rid' :
  rid <> rid' -> delete rid m !! rid' = m !! rid'.
Proof. apply lookup_delete_ne. Qed.

Lemma fresh_pc_unused (m : gmap loc PeerConn) : m !! fresh (dom m) = None.
Proof. apply not_elem_of_dom. apply is_fresh. Qed.

(** X13. The WHIP POST stores a resource only when it answers 201
    Created: on every other outcome the WHIP registry is unchanged. It
    never changes the session manager, and it leaves every peer
    connection that existed before as it was. *)
Theorem whipHandler_stores_only_on_created n r st :
  let out := whipHandler n r st in
  world out.2 = world st /\
  ((exists location, out.1 = Respond StatusCreated (Some location)) \/
   whipResources out.2 = whipResources st) /\
  (forall pc p, pcs st !! pc = Some p -> pcs out.2 !! pc = Some p).
Proof.
  assert (Hkeep : forall (g : PeerConn -> PeerConn) q pc p,
            pcs st !! pc = Some p ->
            alter g (fresh (dom (pcs st))) (<[fresh (dom (pcs st)) := q]> (pcs st)) !! pc
            = Some p).
  { intros g q pc p Hp.
    assert (fresh (dom (pcs st)) <> pc)
      by (intros <-; rewrite fresh_pc_unused in Hp; discriminate).
    by rewrite pcs_alter_ne, pcs_insert_ne. }
  assert (Hkeep1 : forall q pc p,
            pcs st !! pc = Some p ->
            <[fresh (dom (pcs st)) := q]> (pcs st) !! pc = Some p).
  { intros q pc p Hp.
    assert (fresh (dom (pcs st)) <> pc)
      by (intros <-; rewrite fresh_pc_unused in Hp; discriminate).
    by rewrite pcs_insert_ne. }
  unfold whipHandler.
  destruct (negb (String.eqb (Method r) "POST")); [by repeat split; auto|].
  destruct (GetSession (var_id r) (world st)) as [[l|] []]; try (by repeat split; auto).
  destruct (negb (String.eqb (ContentType r) "application/sdp")); [by repeat split; auto|].
  destruct (readOffer r) as [| |offerSDP]; try (by repeat split; auto).
  destruct (newPCFails n); [by repeat split; auto|].
  destruct (setRemoteFails n); [repeat split; auto; apply Hkeep1|].
  destruct (createAnswerFails n); [repeat split; auto; apply Hkeep|].
  destruct (setLocalFails n); [repeat split; auto; apply Hkeep|].
  repeat split; [left; eauto | apply Hkeep].
Qed.

(** X14. A WHIP POST for a registered session, with content type
    application/sdp, a body that arrives in one read of the announced
    length and a negotiation without failure, answers 201 with Location
    /sessions/{id}/whip/{resourceId}; it stores under the new resource
    id a resource that names the session and a peer connection that did
    not exist before, to which the whole body was given as the offer and
    on which Close was never called; every other resource is kept. *)
Theorem whipHandler_creates n r st l body :
  Method r = "POST" ->
  sessions (world st) !! var_id r = Some l ->
  ContentType r = "application/sdp" ->
  ContentLength r = Z.of_nat (length body) ->
  segments (Body r) = [body] ->
  newPCFails n = false -> setRemoteFails n = false ->
  createAnswerFails n = false -> setLocalFails n = false ->
  exists pc st',
    whipHandler n r st
    = (Respond StatusCreated
         (Some ("/sessions/" +:+ var_id r +:+ "/whip/" +:+ resourceUUID n)), st') /\
    pcs st !! pc = None /\
    whipResources st' !! resourceUUID n
    = Some {| rID := resourceUUID n; PeerConnection := pc;
              Main.SessionID := var_id r; DataChannel := None |} /\
    (remoteOffer <$> pcs st' !! pc) = Some (Some body) /\
    (closeCalls <$> pcs st' !! pc) = Some 0%nat /\
    (forall rid, rid <> resourceUUID n ->
       whipResources st' !! rid = whipResources st !! rid).
Proof.
  intros Hm Hs Hc Hlen Hseg H1 H2 H3 H4.
  exists (fresh (dom (pcs st))). eexists.
  unfold whipHandler.
  rewrite Hm, (GetSession_registered _ _ l Hs), Hc,
    (readOffer_one_segment r body Hlen Hseg), H1, H2, H3, H4.
  cbn -[fresh]. split; [reflexivity|]. split; [apply fresh_pc_unused|].
  split; [apply resources_insert_eq|].
  unfold with_resources, with_pcs. cbn [pcs whipResources].
  rewrite pcs_alter_eq, pcs_insert_eq. cbn.
  split; [done|]. split; [done|].
  intros rid Hne. by rewrite resources_insert_ne.
Qed.

Lemma whipHandler_creates_witness :
  exists pc st',
    whipHandler (negotiated "r1") (offerPost "s1" 4 [sdp]) (serving created.2 "")
    = (Respond StatusCreated (Some "/sessions/s1/whip/r1"), st') /\
    (remoteOffer <$> pcs st' !! pc) = Some (Some sdp).
Proof.
  destruct (whipHandler_creates (negotiated "r1") (offerPost "s1" 4 [sdp])
              (serving created.2 "") 0%nat sdp
              eq_refl eq_refl eq_refl eq_refl eq_refl eq_refl eq_refl eq_refl eq_refl)
    as (pc & st' & H1 & _ & _ & H2 & _).
  exists pc, st'. split; [exact H1 | exact H2].
Defined.

(** X15. DELETE of a WHIP resource, twice: the first answers 200,
    calls Close on the resource's peer connection once and removes the
    resource; the second answers 404 and changes nothing, so Close was
    called once in all. Other resources and the session manager are
    untouched. *)
Theorem whip_delete_twice r st res p :
  Method r = "DELETE" ->
  whipResources st !! var_resourceId r = Some res ->
  pcs st !! PeerConnection res = Some p ->
  let first := whipResourceHandler r st in
  let second := whipResourceHandler r first.2 in
  first.1 = StatusOK /\
  whipResources first.2 !! var_resourceId r = None /\
  second.1 = StatusNotFound /\
  second.2 = first.2 /\
  (closeCalls <$> pcs second.2 !! PeerConnection res) = Some (S (closeCalls p)) /\
  (forall rid, rid <> var_resourceId r ->
     whipResources first.2 !! rid = whipResources st !! rid) /\
  world first.2 = world st.
Proof.
  intros Hm Hres Hp.
  set (st1 := with_resources
                (delete (var_resourceId r)
                   (whipResources (pcClose (PeerConnection res) st)))
                (pcClose (PeerConnection res) st)).
  assert (E1 : whipResourceHandler r st = (StatusOK, st1))
    by (unfold whipResourceHandler; by rewrite Hres, Hm).
  assert (Hgone : whipResources st1 !! var_resourceId r = None)
    by apply resources_delete_eq.
  assert (E2 : whipResourceHandler r st1 = (StatusNotFound, st1))
    by (unfold whipResourceHandler; by rewrite Hgone).
  cbv zeta. rewrite E1. cbn [fst snd]. rewrite E2. cbn [fst snd].
  repeat split; auto.
  - unfold st1, with_resources, pcClose, with_pcs. cbn [pcs].
    rewrite pcs_alter_eq, Hp. reflexivity.
  - intros rid Hne. unfold st1, with_resources, pcClose, with_pcs.
    cbn [whipResources]. by rewrite resources_delete_ne.
Qed.

Lemma whip_delete_twice_witness :
  let r := {| Method := "DELETE"; Host := ""; XForwardedProto := "";
              ContentType := ""; TLS := false; ContentLength := 0;
              Body := {| segments := []; final := EOF |};
              var_id := "s1"; var_resourceId := "r1" |} in
  let first := whipResourceHandler r ingesting.2 in
  let second := whipResourceHandler r first.2 in
  first.1 = StatusOK /\ second.1 = StatusNotFound /\
  (closeCalls <$> pcs second.2 !! 0%nat) = Some 1%nat.
Proof.
  intros r.
  destruct (whip_delete_twice r ingesting.2
              {| rID := "r1"; PeerConnection := 0%nat; Main.SessionID := "s1";
                 DataChannel := None |}
              {| pcState := PCNew; closeCalls := 0; remoteOffer := Some sdp |}
              eq_refl eq_refl eq_refl) as (H1 & _ & H2 & _ & H3 & _).
  split; [exact H1 | split; [exact H2 | exact H3]].
Defined.

(** X16. The other answers of the resource route: an unknown resource
    id gets 404 for every method; PATCH on a known resource gets 204; a
    method other than PATCH and DELETE on a known resource gets 405. None
    of them changes the state: no connection is closed, no resource
    removed. *)
Theorem whipResourceHandler_no_effect r st :
  (whipResources st !! var_resourceId r = None ->
     whipResourceHandler r st = (StatusNotFound, st)) /\
  (is_Some (whipResources st !! var_resourceId r) -> Method r = "PATCH" ->
     whipResourceHandler r st = (StatusNoContent, st)) /\
  (is_Some (whipResources st !! var_resourceId r) ->
   Method r <> "PATCH" -> Method r <> "DELETE" ->
     whipResourceHandler r st = (StatusMethodNotAllowed, st)).
Proof.
  unfold whipResourceHandler. repeat split.
  - by intros ->.
  - intros [res ->] ->. reflexivity.
  - intros [res ->] H1 H2.
    by rewrite (eqb_false_of_ne _ _ H1), (eqb_false_of_ne _ _ H2).
Qed.

Lemma whipResourceHandler_no_effect_witness :
  whipResourceHandler
    {| Method := "PATCH"; Host := ""; XForwardedProto := "";
       ContentType := ""; TLS := false; ContentLength := 0;
       Body := {| segments := []; final := EOF |};
       var_id := "s1"; var_resourceId := "r1" |} ingesting.2
  = (StatusNoContent, ingesting.2).
Proof.
  apply (proj1 (proj2 (whipResourceHandler_no_effect _ ingesting.2))).
  - eexists. reflexivity.
  - reflexivity.
Defined.

(** X17. What a change of connection state does to the registry: a
    change to failed or closed removes the resource of that connection;
    a change to any other state (new, connecting, connected,
    disconnected) leaves the registry as it is; no change ever touches
    another resource or the session manager. *)
Theorem state_change_frame pc rid state st :
  let st' := connectionStateChange pc rid state st in
  world st' = world st /\
  (isTerminal state = true -> whipResources st' !! rid = None) /\
  (isTerminal state = false -> whipResources st' = whipResources st) /\
  (forall rid', rid' <> rid -> whipResources st' !! rid' = whipResources st !! rid').
Proof.
  unfold connectionStateChange, OnConnectionStateChange.
  destruct state; cbn; repeat split; try done;
    try (intros _; apply resources_delete_eq);
    try (intros rid' Hne; by rewrite resources_delete_ne).
Qed.

Lemma state_change_frame_witness :
  whipResources (connectionStateChange 0%nat "r1" PCDisconnected ingesting.2)
  = whipResources ingesting.2 /\
  whipResources (connectionStateChange 0%nat "r1" PCClosed ingesting.2) !! "r1" = None.
Proof.
  split.
  - apply (proj1 (proj2 (proj2 (state_change_frame 0%nat "r1" PCDisconnected
                                   ingesting.2)))). reflexivity.
  - apply (proj1 (proj2 (state_change_frame 0%nat "r1" PCClosed ingesting.2))).
    reflexivity.
Defined.

(** ** Screencast pump: target selection and read loop *)

Lemma qualifies_iff t :
  String.eqb (targetType t) "page" && negb (String.eqb (WebSocketDebuggerURL t) "") = true
  <-> targetType t = "page" /\ WebSocketDebuggerURL t <> "".
Proof.
  destruct (String.eqb_spec (targetType t) "page");
    destruct (String.eqb_spec (WebSocketDebuggerURL t) ""); simpl;
    split; try discriminate; try tauto; intros [? ?]; congruence.
Qed.

(** X18. The pump picks the first target whose type is page and whose
    debugger URL is not empty: every target before the chosen one fails
    one of the two tests; the result is the empty string exactly when no
    target passes both. *)
Theorem pageTarget_first ts :
  (pageTarget ts = "" <->
   Forall (fun t => ~ (targetType t = "page" /\ WebSocketDebuggerURL t <> "")) ts) /\
  (pageTarget ts <> "" ->
   exists pre t post,
     ts = pre ++ t :: post /\
     targetType t = "page" /\ WebSocketDebuggerURL t = pageTarget ts /\
     Forall (fun t' => ~ (targetType t' = "page" /\ WebSocketDebuggerURL t' <> "")) pre).
Proof.
  unfold pageTarget. induction ts as [|t ts [IH1 IH2]].
  - split; [split; [constructor | reflexivity]|]. intros H. by destruct H.
  - rewrite filter_cons. case_decide as Hq.
    + apply qualifies_iff in Hq as Hq'. destruct Hq' as [Hp Hu]. split.
      * split; [intros H; congruence|].
        intros H. apply Forall_cons in H as [H _]. tauto.
      * intros _. exists [], t, ts. repeat split; auto.
    + assert (Hn : ~ (targetType t = "page" /\ WebSocketDebuggerURL t <> ""))
        by (intros H; by apply qualifies_iff in H).
      split.
      * rewrite IH1. split; [by constructor|].
        intros H. by apply Forall_cons in H as [_ H].
      * intros H. destruct (IH2 H) as (pre & t' & post & -> & Hp & Hu & Hpre).
        exists (t :: pre), t', post. repeat split; auto.
Qed.

Lemma pageTarget_first_witness :
  exists pre t post,
    [ {| targetType := "browser"; WebSocketDebuggerURL := "ws://127.0.0.1:9222/devtools/browser/b1" |};
      {| targetType := "page"; WebSocketDebuggerURL := "" |};
      {| targetType := "page"; WebSocketDebuggerURL := "ws://127.0.0.1:9222/devtools/page/p1" |};
      {| targetType := "page"; WebSocketDebuggerURL := "ws://127.0.0.1:9222/devtools/page/p2" |} ]
    = pre ++ t :: post /\
    WebSocketDebuggerURL t = "ws://127.0.0.1:9222/devtools/page/p1".
Proof.
  destruct (proj2 (pageTarget_first
    [ {| targetType := "browser"; WebSocketDebuggerURL := "ws://127.0.0.1:9222/devtools/browser/b1" |};
      {| targetType := "page"; WebSocketDebuggerURL := "" |};
      {| targetType := "page"; WebSocketDebuggerURL := "ws://127.0.0.1:9222/devtools/page/p1" |};
      {| targetType := "page"; WebSocketDebuggerURL := "ws://127.0.0.1:9222/devtools/page/p2" |} ])
    ltac:(vm_compute; discriminate)) as (pre & t & post & H1 & _ & H2 & _).
  exists pre, t, post. split; [exact H1 | exact H2].
Defined.

(** X19. Messages that are not screencast frames, and messages that are
    not JSON, are read and passed over: on an input made of such
    messages the pump sends nothing on the data channel and writes no
    ack; its trace is the reads alone. *)
Theorem readLoop_ignores f input s :
  Forall ignored input ->
  readLoop f input s = EvRead <$> input.
Proof.
  induction 1 as [|i input Hi _ IH]; [done|].
  destruct i as [| |msg]; [by destruct Hi | |]; cbn [readLoop fmap list_fmap].
  - by rewrite IH.
  - simpl in Hi. rewrite (eqb_false_of_ne _ _ Hi). cbn. by rewrite IH.
Qed.

Lemma readLoop_ignores_witness :
  readLoop quiet
    [Malformed;
     Message {| msgID := 2; msgMethod := ""; Params := None |};
     Message {| msgID := 0; msgMethod := "Page.frameNavigated"; Params := None |}]
    initialLoopState
  = [EvRead Malformed;
     EvRead (Message {| msgID := 2; msgMethod := ""; Params := None |});
     EvRead (Message {| msgID := 0; msgMethod := "Page.frameNavigated"; Params := None |})].
Proof.
  exact (readLoop_ignores quiet
           [Malformed;
            Message {| msgID := 2; msgMethod := ""; Params := None |};
            Message {| msgID := 0; msgMethod := "Page.frameNavigated"; Params := None |}]
           initialLoopState
           ltac:(repeat constructor; discriminate)).
Defined.

(** X20. A failed read ends the pump: whatever the debugger connection
    would deliver after a read error has no effect on the trace. *)
Theorem readLoop_stops_at_read_error f pre post : forall s,
  readLoop f (pre ++ ReadFails :: post) s = readLoop f (pre ++ [ReadFails]) s.
Proof.
  induction pre as [|i pre IH]; intros s; [reflexivity|].
  destruct i as [| |msg]; cbn [readLoop app]; [reflexivity | by rewrite IH |].
  f_equal.
  destruct (negb (String.eqb (msgMethod msg) "Page.screencastFrame")); [apply IH|].
  destruct (Params msg) as [p|]; [|apply IH].
  destruct (DecodeString (Data p)) as [data|]; [|apply IH].
  cbn. destruct (dcFails f (dcSends s)); [reflexivity|].
  by rewrite IH.
Qed.

Lemma omap_sends {A} (g : Event -> option A) evs :
  Forall (fun e => exists c ok, e = EvSend c ok) evs ->
  (forall c ok, g (EvSend c ok) = None) ->
  omap g evs = [].
Proof.
  intros H Hg. induction H as [|e evs (c & ok & ->) _ IH]; [done|].
  cbn. by rewrite Hg.
Qed.

Lemma ackIds_chunks f data i k : ackIds (sendChunks f data i k) = [].
Proof.
  apply omap_sends; [|done].
  by apply (sendChunks_only_sends f data _ i k eq_refl).
Qed.

Lemma ackSessionIds_chunks f data i k : ackSessionIds (sendChunks f data i k) = [].
Proof.
  apply omap_sends; [|done].
  by apply (sendChunks_only_sends f data _ i k eq_refl).
Qed.

Lemma ackIds_from f input : forall s,
  - 2^63 <= idCounter s ->
  idCounter s + Z.of_nat (length input) < 2^63 ->
  exists n, (n <= length input)%nat /\
    ackIds (readLoop f input s)
    = (fun i => idCounter s + 1 + Z.of_nat i) <$> seq 0 n.
Proof.
  induction input as [|i input IH]; intros s Hlo Hhi.
  { exists 0%nat. by split. }
  assert (Hskip : forall s', idCounter s' = idCounter s ->
            exists n, (n <= length (i :: input))%nat /\
              ackIds (readLoop f input s')
              = (fun i => idCounter s + 1 + Z.of_nat i) <$> seq 0 n).
  { intros s' Hs'. destruct (IH s') as (n & Hn & Hacks).
    - by rewrite Hs'.
    - rewrite Hs'. simpl in Hhi. lia.
    - exists n. split; [simpl; lia|]. by rewrite Hacks, Hs'. }
  destruct i as [| |msg]; cbn [readLoop].
  - exists 0%nat. split; [lia | done].
  - change (ackIds (EvRead Malformed :: readLoop f input s))
      with (ackIds (readLoop f input s)). by apply Hskip.
  - match goal with |- context [EvRead ?m :: ?t] =>
      change (ackIds (EvRead m :: t)) with (ackIds t) end.
    destruct (negb (String.eqb (msgMethod msg) "Page.screencastFrame"));
      [by apply Hskip|].
    destruct (Params msg) as [p|]; [|by apply Hskip].
    destruct (DecodeString (Data p)) as [data|]; [|by apply Hskip].
    cbn [idCounter dcSends acks frameCount].
    destruct (dcFails f (dcSends s)); [exists 0%nat; split; [lia | done]|].
    match goal with |- context [readLoop f input ?s2] =>
      destruct (IH s2) as (n & Hn & Hacks) end.
    + cbn [idCounter]. rewrite wrap64_small by (simpl in Hhi; lia). lia.
    + cbn [idCounter]. rewrite wrap64_small by (simpl in Hhi; lia).
      simpl in Hhi. lia.
    + exists (S n). split; [simpl; lia|].
      unfold ackIds in *. cbn [omap list_omap].
      rewrite omap_app. fold (ackIds (sendChunks f data 0 (S (dcSends s)))).
      rewrite ackIds_chunks. cbn [app omap list_omap].
      rewrite Hacks. cbn [idCounter].
      rewrite wrap64_small by (simpl in Hhi; lia).
      cbn [seq fmap list_fmap]. f_equal; [lia|].
      rewrite <- fmap_S_seq, <- list_fmap_compose.
      apply list_fmap_ext. intros j x _. cbn. lia.
Qed.

Lemma reads_chunks f data i k : reads (sendChunks f data i k) = [].
Proof.
  apply omap_sends; [|done].
  by apply (sendChunks_only_sends f data _ i k eq_refl).
Qed.

(** What one turn on a frame contributes to the acks and to the reads. *)
Lemma ackIds_turn f data k id sid ok tl :
  ackIds (EvSendText (length data) true :: sendChunks f data 0 k ++ EvAck id sid ok :: tl)
  = id :: ackIds tl.
Proof.
  unfold ackIds. cbn [omap list_omap]. rewrite omap_app.
  fold (ackIds (sendChunks f data 0 k)). by rewrite ackIds_chunks.
Qed.

Lemma reads_turn f data k id sid ok tl :
  reads (EvSendText (length data) true :: sendChunks f data 0 k ++ EvAck id sid ok :: tl)
  = reads tl.
Proof.
  unfold reads. cbn [omap list_omap]. rewrite omap_app.
  fold (reads (sendChunks f data 0 k)). by rewrite reads_chunks.
Qed.

(** The messages read are an initial part of what the connection
    delivers. *)
Lemma reads_prefix f input : forall s,
  reads (readLoop f input s) `prefix_of` input.
Proof.
  induction input as [|i input IH]; intros s; [apply prefix_nil|].
  destruct i as [| |msg]; cbn [readLoop].
  - apply prefix_nil.
  - change (reads (EvRead Malformed :: readLoop f input s))
      with (Malformed :: reads (readLoop f input s)).
    apply prefix_cons, IH.
  - match goal with |- context [EvRead ?m :: ?t] =>
      change (reads (EvRead m :: t)) with (Message msg :: reads t) end.
    apply prefix_cons.
    destruct (negb (String.eqb (msgMethod msg) "Page.screencastFrame")); [apply IH|].
    destruct (Params msg) as [p|]; [|apply IH].
    destruct (DecodeString (Data p)) as [data|]; [|apply IH].
    cbn [idCounter dcSends acks frameCount].
    destruct (dcFails f (dcSends s)); [apply prefix_nil|].
    rewrite reads_turn. apply IH.
Qed.

(** Every ack follows the read of its own frame. *)
Lemma acks_le_reads f input : forall s,
  (length (ackIds (readLoop f input s)) <= length (reads (readLoop f input s)))%nat.
Proof.
  induction input as [|i input IH]; intros s; [done|].
  destruct i as [| |msg]; cbn [readLoop].
  - done.
  - change (reads (EvRead Malformed :: readLoop f input s))
      with (Malformed :: reads (readLoop f input s)).
    change (ackIds (EvRead Malformed :: readLoop f input s))
      with (ackIds (readLoop f input s)).
    specialize (IH s). simpl. lia.
  - match goal with |- context [EvRead ?m :: ?t] =>
      change (reads (EvRead m :: t)) with (Message msg :: reads t);
      change (ackIds (EvRead m :: t)) with (ackIds t) end.
    cbn [length].
    destruct (negb (String.eqb (msgMethod msg) "Page.screencastFrame"));
      [specialize (IH s); lia|].
    destruct (Params msg) as [p|];
      [|match goal with |- context [readLoop f input ?s1] =>
          specialize (IH s1); lia end].
    destruct (DecodeString (Data p)) as [data|];
      [|match goal with |- context [readLoop f input ?s1] =>
          specialize (IH s1); lia end].
    cbn [idCounter dcSends acks frameCount].
    destruct (dcFails f (dcSends s)); [simpl; lia|].
    rewrite reads_turn, ackIds_turn. cbn [length].
    match goal with |- context [readLoop f input ?s2] => specialize (IH s2) end.
    lia.
Qed.

(** X21. The acks of one pump carry the command ids 101, 102, 103, ...
    in the order they are written (for any input of fewer than 2^62
    messages, so that the int64 counter cannot wrap): the ids are
    pairwise distinct and no ack reuses the id of a bootstrap command.
    There are at most as many acks as messages read, and the messages
    read are an initial part of what the connection delivers. *)
Theorem ack_ids_count_up f input :
  Z.of_nat (length input) < 2^62 ->
  let tr := readLoop f input initialLoopState in
  exists n,
    ackIds tr = (fun i => 101 + Z.of_nat i) <$> seq 0 n /\
    (n <= length (reads tr))%nat /\
    reads tr `prefix_of` input.
Proof.
  intros H tr. subst tr.
  destruct (ackIds_from f input initialLoopState) as (n & _ & Hacks);
    cbn [idCounter initialLoopState]; [lia | lia |].
  exists n. split; [rewrite Hacks; reflexivity|]. split; [|apply reads_prefix].
  pose proof (acks_le_reads f input initialLoopState) as Hle.
  rewrite Hacks, length_fmap, length_seq in Hle. exact Hle.
Qed.

(** A run of one frame, a read error, and a frame that is never read:
    one message was read, so there is at most one ack. *)
Lemma ack_ids_count_up_witness :
  exists n,
    ackIds (readLoop quiet [frame "QQ==" 8; ReadFails; frame "QQ==" 9] initialLoopState)
    = (fun i => 101 + Z.of_nat i) <$> seq 0 n /\
    (n <= 1)%nat.
Proof.
  destruct (ack_ids_count_up quiet [frame "QQ==" 8; ReadFails; frame "QQ==" 9])
    as (n & H1 & H2 & _); [reflexivity|].
  exists n. split; [exact H1 | exact H2].
Defined.

Lemma ackSessionIds_prefix f input : forall s,
  ackSessionIds (readLoop f input s) `prefix_of` omap decodableFrame input.
Proof.
  induction input as [|i input IH]; intros s; [apply prefix_nil|].
  destruct i as [| |msg]; cbn [readLoop omap list_omap decodableFrame].
  - apply prefix_nil.
  - apply IH.
  - match goal with |- context [EvRead ?m :: ?t] =>
      change (ackSessionIds (EvRead m :: t)) with (ackSessionIds t) end.
    destruct (String.eqb (msgMethod msg) "Page.screencastFrame"); cbn [negb];
      [|apply IH].
    destruct (Params msg) as [p|]; [|apply IH].
    destruct (DecodeString (Data p)) as [data|]; [|apply IH].
    cbn [idCounter dcSends acks frameCount].
    destruct (dcFails f (dcSends s)); [apply prefix_nil|].
    unfold ackSessionIds. cbn [omap list_omap]. rewrite omap_app.
    fold (ackSessionIds (sendChunks f data 0 (S (dcSends s)))).
    rewrite ackSessionIds_chunks. cbn [app omap list_omap].
    apply prefix_cons. apply IH.
Qed.

Lemma ackSessionIds_all f input : forall s,
  (forall k, dcFails f k = false) ->
  ReadFails ∉ input ->
  ackSessionIds (readLoop f input s) = omap decodableFrame input.
Proof.
  intros s Hok. revert s.
  induction input as [|i input IH]; intros s Hin; [done|].
  apply not_elem_of_cons in Hin as [Hne Hin].
  destruct i as [| |msg]; cbn [readLoop omap list_omap decodableFrame].
  - done.
  - by apply IH.
  - match goal with |- context [EvRead ?m :: ?t] =>
      change (ackSessionIds (EvRead m :: t)) with (ackSessionIds t) end.
    destruct (String.eqb (msgMethod msg) "Page.screencastFrame"); cbn [negb];
      [|by apply IH].
    destruct (Params msg) as [p|]; [|by apply IH].
    destruct (DecodeString (Data p)) as [data|]; [|by apply IH].
    cbn [idCounter dcSends acks frameCount]. rewrite Hok.
    unfold ackSessionIds. cbn [omap list_omap]. rewrite omap_app.
    fold (ackSessionIds (sendChunks f data 0 (S (dcSends s)))).
    rewrite ackSessionIds_chunks. cbn [app omap list_omap].
    f_equal. by apply IH.
Qed.

(** X22. The pump acks frames in the order the browser delivered them:
    the screencast session ids of the acks are always an initial part of
    the session ids of the frames of the input that decode; when no send
    on the data channel fails and no read fails, they are all of them. *)
Theorem acks_follow_frames f input s :
  ackSessionIds (readLoop f input s) `prefix_of` omap decodableFrame input /\
  ((forall k, dcFails f k = false) -> ReadFails ∉ input ->
   ackSessionIds (readLoop f input s) = omap decodableFrame input).
Proof.
  split; [apply ackSessionIds_prefix | apply ackSessionIds_all].
Qed.

Lemma acks_follow_frames_witness :
  ackSessionIds (readLoop quiet [frame "QQ==" 8; Malformed; frame "!" 7; frame "QQ==" 9]
                   initialLoopState)
  = [8; 9].
Proof.
  apply (proj2 (acks_follow_frames quiet
                  [frame "QQ==" 8; Malformed; frame "!" 7; frame "QQ==" 9]
                  initialLoopState)).
  - reflexivity.
  - intros H. repeat (apply elem_of_cons in H as [H|H]; [discriminate|]).
    by apply not_elem_of_nil in H.
Defined.

Lemma sendChunks_shape f data : forall n i k,
  (length data - i = n)%nat ->
  exists cs : list bytes,
    (sendChunks f data i k = map (fun c => EvSend c true) cs /\
     concat cs = drop i data) \/
    (exists c, sendChunks f data i k = map (fun c => EvSend c true) cs ++ [EvSend c false] /\
               (concat cs ++ c) `prefix_of` drop i data).
Proof.
  induction n as [n IH] using lt_wf_ind. intros i k Hn.
  pose proof chunkSize_pos as Hpos.
  destruct (decide (i < length data)%nat) as [Hi|Hi].
  - rewrite sendChunks_step by done. cbv zeta.
    set (chunk := take (Nat.min chunkSize (length data - i)) (drop i data)).
    assert (Hsplit : drop i data = chunk ++ drop (i + chunkSize) data).
    { unfold chunk. destruct (decide (chunkSize <= length data - i)%nat).
      - rewrite Nat.min_l by lia. rewrite <- drop_drop. symmetry. apply take_drop.
      - rewrite Nat.min_r by lia. rewrite take_ge by (rewrite length_drop; lia).
        rewrite (drop_ge data (i + chunkSize)) by lia. by rewrite app_nil_r. }
    destruct (dcFails f k).
    + exists []. right. exists chunk. split; [done|].
      rewrite Hsplit. simpl. by apply prefix_app_r.
    + destruct (IH (length data - (i + chunkSize))%nat ltac:(lia)
                   (i + chunkSize)%nat (S k) eq_refl)
        as (cs & [[Hcs Hcat]|(c & Hcs & Hpre)]).
      * exists (chunk :: cs). left. split; [simpl; by rewrite Hcs|].
        simpl. by rewrite Hcat, Hsplit.
      * exists (chunk :: cs). right. exists c. split; [simpl; by rewrite Hcs|].
        simpl. rewrite Hsplit, <- app_assoc. by apply prefix_app.
  - rewrite sendChunks_done by lia. exists []. left. split; [done|].
    simpl. symmetry. apply drop_ge. lia.
Qed.

(** X23. The chunk loop stops at the first failed send: its sends are
    successful sends of consecutive pieces of the payload, followed by
    at most one failed send, which is then the last; what it sent is an
    initial part of the payload, and the whole payload when no send
    failed. *)
Theorem sendChunks_stops_at_failure f data i k :
  exists cs : list bytes,
    (sendChunks f data i k = map (fun c => EvSend c true) cs /\
     concat cs = drop i data) \/
    (exists c, sendChunks f data i k = map (fun c => EvSend c true) cs ++ [EvSend c false] /\
               (concat cs ++ c) `prefix_of` drop i data).
Proof. exact (sendChunks_shape f data _ i k eq_refl). Qed.

(** ** Debugger proxy: one direction of the relay *)

Lemma forward_prefix reads wf : forall k,
  (forward reads wf k).*1 `prefix_of` omap id reads.
Proof.
  induction reads as [|[m|] reads IH]; intros k; cbn; try apply prefix_nil.
  destruct (wf k); cbn.
  - apply prefix_cons, prefix_nil.
  - apply prefix_cons, IH.
Qed.

(** X24. A forwarder of the debugger proxy is transparent: the messages
    it writes to one side are, with their type and payload unchanged and
    in order, an initial part of the messages it read from the other;
    when no write fails it forwards every message read before the first
    read error (or the end of the connection) and nothing after it. *)
Theorem forward_relays ms rest wf k :
  rest = [] \/ (exists rest', rest = None :: rest') ->
  (forward ((Some <$> ms) ++ rest) wf k).*1 `prefix_of` ms /\
  ((forall j, wf j = false) ->
   forward ((Some <$> ms) ++ rest) wf k = (fun m => (m, true)) <$> ms).
Proof.
  intros Hrest. split.
  - assert (Hall : omap id ((Some <$> ms) ++ rest) = ms ++ omap id rest).
    { rewrite omap_app. f_equal. clear. induction ms as [|m ms IH]; [done|].
      cbn. by rewrite IH. }
    revert k. induction ms as [|m ms IH]; intros k.
    + destruct Hrest as [->|(rest' & ->)]; apply prefix_nil.
    + cbn. destruct (wf k); cbn; apply prefix_cons; [apply prefix_nil | apply IH].
      clear. rewrite omap_app. f_equal. induction ms as [|m ms IH]; [done|].
      cbn. by rewrite IH.
  - intros Hok. revert k. induction ms as [|m ms IH]; intros k.
    + by destruct Hrest as [->|(rest' & ->)].
    + cbn. rewrite Hok. by rewrite IH.
Qed.

Lemma forward_relays_witness :
  forward [Some {| msgType := 1; payload := sdp |};
           Some {| msgType := 2; payload := [] |};
           None;
           Some {| msgType := 1; payload := sdp |}] (fun _ => false) 0
  = [({| msgType := 1; payload := sdp |}, true);
     ({| msgType := 2; payload := [] |}, true)].
Proof.
  exact (proj2 (forward_relays
                  [{| msgType := 1; payload := sdp |}; {| msgType := 2; payload := [] |}]
                  [None; Some {| msgType := 1; payload := sdp |}] (fun _ => false) 0%nat
                  (or_intror (ex_intro _ _ eq_refl)))
               (fun _ => eq_refl)).
Defined.

(** ** Automation ticker *)

Lemma ticker_two n b wf k :
  wf k = false -> wf (S k) = false ->
  ticker (S (S n)) b wf k =
    ((if b then 100 else -100), scrollExpr (if b then 100 else -100), true)
    :: ((if b then -100 else 100), scrollExpr (if b then -100 else 100), true)
    :: ticker n b wf (S (S k)).
Proof.
  intros H1 H2. cbn [ticker]. rewrite H1, H2. by destruct b.
Qed.

(** X25. While its writes succeed the automation ticker alternates: the
    first tick scrolls down by 100, the next up by 100, and so on, so
    that after any even number of ticks the scroll offsets it asked for
    add up to zero. *)
Theorem ticker_alternates m wf :
  (forall j, wf j = false) ->
  foldr Z.add 0 ((fun x => x.1.1) <$> ticker (2 * m) true wf 0) = 0 /\
  (forall j x, ticker (2 * m) true wf 0 !! j = Some x ->
     x = (if Nat.even j then (100, "window.scrollBy(0, 100);", true)
          else (-100, "window.scrollBy(0, -100);", true))).
Proof.
  intros Hok.
  assert (Hgen : forall m k,
            foldr Z.add 0 ((fun x => x.1.1) <$> ticker (2 * m) true wf k) = 0 /\
            (forall j x, ticker (2 * m) true wf k !! j = Some x ->
               x = (if Nat.even j then (100, "window.scrollBy(0, 100);", true)
                    else (-100, "window.scrollBy(0, -100);", true)))).
  { clear m. induction m as [|m IH]; intros k.
    { split; [done|]. intros j x H. simpl in H. by rewrite lookup_nil in H. }
    replace (2 * S m)%nat with (S (S (2 * m))) by lia.
    rewrite ticker_two by apply Hok.
    destruct (IH (S (S k))) as [Hsum Hat]. split.
    - cbn [fmap list_fmap foldr fst]. rewrite Hsum. reflexivity.
    - intros [|[|j]] x H; cbn in H.
      + by injection H as <-.
      + by injection H as <-.
      + rewrite (Hat j x H). reflexivity. }
  apply Hgen.
Qed.

Lemma ticker_alternates_witness :
  foldr Z.add 0 ((fun x => x.1.1) <$> ticker (2 * 2) true (fun _ => false) 0) = 0 /\
  ticker 3 true (fun k => Nat.eqb k 1) 0
  = [(100, "window.scrollBy(0, 100);", true); (-100, "window.scrollBy(0, -100);", false)].
Proof.
  split.
  - exact (proj1 (ticker_alternates 2 (fun _ => false) (fun _ => eq_refl))).
  - reflexivity.
Defined.

(** ** URLs and the debugger route *)

(** X26. Without APP_HOST and without an X-Forwarded-Proto header the
    URLs of a SessionResponse are built on the request's own Host: ws and
    http for a plain request, wss and https for one that arrived over
    TLS. *)
Theorem urls_from_request st r s :
  APP_HOST st = "" ->
  XForwardedProto r = "" ->
  CDPURL (sessionResponse st r s)
  = (if TLS r then "wss" else "ws") +:+ "://" +:+ Host r +:+ "/sessions/" +:+ ID s +:+ "/cdp" /\
  PreviewURL (sessionResponse st r s)
  = (if TLS r then "https" else "http") +:+ "://" +:+ Host r +:+ "/sessions/" +:+ ID s
    +:+ "/preview".
Proof.
  intros Ha Hx. unfold sessionResponse, resolveWSScheme, resolveScheme, resolveHost.
  cbn [CDPURL PreviewURL]. rewrite Ha, Hx. cbn [String.eqb negb].
  by destruct (TLS r).
Qed.

Lemma urls_from_request_witness :
  CDPURL (sessionResponse (serving NewManager "") (request "POST" "")
            {| ID := "s1"; CreatedAt := 0; ExpiresAt := 120 + 5 * minute;
               wsURL := "ws://127.0.0.1:9222/devtools/browser/b1";
               isClosed := false |})
  = "ws://localhost:8080/sessions/s1/cdp".
Proof.
  exact (proj1 (urls_from_request (serving NewManager "") (request "POST" "")
                  {| ID := "s1"; CreatedAt := 0; ExpiresAt := 120 + 5 * minute;
                     wsURL := "ws://127.0.0.1:9222/devtools/browser/b1";
                     isClosed := false |} eq_refl eq_refl)).
Defined.

(** X27. The debugger route: an id that is not registered gets 404
    whatever the browser would answer; for a registered session (in a
    registry of the right shape) a failed dial of the browser gets 502,
    and a successful dial followed by a successful upgrade gets 101. *)
Theorem cdpProxyHandler_status d r st :
  (sessions (world st) !! var_id r = None ->
     cdpProxyHandler d r st = StatusNotFound) /\
  (registry_ok (world st) -> is_Some (sessions (world st) !! var_id r) ->
     (ProxyPkg.dialFails d = true -> cdpProxyHandler d r st = ProxyPkg.StatusBadGateway) /\
     (ProxyPkg.dialFails d = false -> ProxyPkg.upgradeFails d = None ->
        cdpProxyHandler d r st = ProxyPkg.StatusSwitchingProtocols)).
Proof.
  unfold cdpProxyHandler. split.
  - intros H. by rewrite (GetSession_missing _ _ H).
  - intros Hok [l Hl]. rewrite (GetSession_registered _ _ l Hl).
    destruct (Hok _ _ Hl) as (s & -> & _). unfold ProxyPkg.ProxyCDP.
    split; [by intros -> | by intros -> ->].
Qed.

Lemma cdpProxyHandler_status_witness :
  cdpProxyHandler unreachable (request "GET" "s1") (serving created.2 "")
  = ProxyPkg.StatusBadGateway /\
  cdpProxyHandler unreachable (request "GET" "nope") (serving created.2 "")
  = StatusNotFound.
Proof.
  split.
  - apply (proj2 (cdpProxyHandler_status unreachable (request "GET" "s1")
                    (serving created.2 ""))).
    + exact (registry_ok_CreateSession (5 * minute) (launch "s1" second) NewManager
               registry_ok_empty).
    + exists 0%nat. reflexivity.
    + reflexivity.
  - apply (proj1 (cdpProxyHandler_status unreachable (request "GET" "nope")
                    (serving created.2 ""))).
    reflexivity.
Defined.

(** ** MJPEG preview loop *)

(** X28. In the preview loop every failure is final: a failed read, a
    message that is not JSON, a failed part creation, a failed write of
    the image and a failed ack write each end the loop, so a failure can
    only be the last event of a trace. *)
Theorem previewLoop_failure_is_last pf input : forall k j e,
  previewLoop pf input k !! j = Some e ->
  pvFailed e ->
  S j = length (previewLoop pf input k).
Proof.
  induction input as [|i input IH]; intros k j e Hj Hf; [by destruct j|].
  destruct i as [| |msg]; cbn [previewLoop] in *.
  - by destruct j as [|[|j]].
  - by destruct j as [|[|j]].
  - destruct j as [|j]; [injection Hj as <-; by destruct Hf|].
    cbn [lookup list_lookup] in Hj. cbn [length]. f_equal.
    destruct (String.eqb (msgMethod msg) "Page.screencastFrame"); [|by apply (IH k j e)].
    destruct (Params msg) as [p|]; [|by apply (IH k j e)].
    destruct (DecodeString (Data p)) as [data|]; [|by apply (IH k j e)].
    destruct (createPartFails pf k); [by destruct j as [|[|j]]|].
    destruct (partWriteFails pf k).
    { destruct j as [|[|[|j]]]; try done. injection Hj as <-. discriminate Hf. }
    destruct (pvAckFails pf k).
    { destruct j as [|[|[|[|j]]]]; try done; injection Hj as <-; discriminate Hf. }
    destruct j as [|[|[|j]]]; try (injection Hj as <-; discriminate Hf).
    cbn [lookup list_lookup] in Hj. cbn [length]. do 3 f_equal. by apply (IH (S k) j e).
Qed.

Lemma previewLoop_failure_is_last_witness :
  previewLoop {| createPartFails := fun _ => false;
                 partWriteFails := fun k => Nat.eqb k 1;
                 pvAckFails := fun _ => false |}
    [frame "QQ==" 8; frame "QQ==" 9; frame "QQ==" 10] 0 !! 6%nat
  = Some (PvWrite [Byte.x41] false) /\
  7%nat = length (previewLoop {| createPartFails := fun _ => false;
                                 partWriteFails := fun k => Nat.eqb k 1;
                                 pvAckFails := fun _ => false |}
                    [frame "QQ==" 8; frame "QQ==" 9; frame "QQ==" 10] 0).
Proof.
  split; [vm_compute; reflexivity|].
  apply (previewLoop_failure_is_last _ _ 0%nat 6%nat (PvWrite [Byte.x41] false));
    [vm_compute; reflexivity | reflexivity].
Defined.
